(** * HydroLip Scanner: a model of [src/main.jsx] and its properties

    The program is one React component, [App], with five pieces of
    component state ([image], [isAnalyzing], [results], [error],
    [isCameraActive]), one mutable ref to a camera stream ([streamRef]),
    and a handful of event handlers, three of which are asynchronous
    ([startCamera], the [FileReader] callback of [handleImageUpload], and
    [analyzeLips]).

    The embedding follows the source:
    - JavaScript strings are [string]s of code units, with [startsWith],
      [split], [includes] and [toLowerCase] written out;
    - JavaScript values (what [JSON.parse] returns, what a property access
      yields) are the inductive type [value];
    - a handler is a computation in a small state-and-exception monad over
      the [world]: the component state, the ref, the media streams the
      platform has handed out, the outbound requests, and the asynchronous
      operations still in flight;
    - the user interface is the function [render] giving the panels that
      are on screen, and [step] runs one browser event when the control it
      needs is rendered. *)

From Stdlib Require Import String Ascii ZArith List Lia DecimalString.
From stdpp Require Import base list gmap strings.

Local Open Scope string_scope.
Local Set Warnings "-register-all".
Local Arguments String.append !s1 s2.

(** ** JavaScript strings *)

Module JsString.

(** [s.startsWith(pre)] *)
Definition startsWith (pre s : string) : bool := String.prefix pre s.

(** [s.includes(pat)]: [pat] occurs at some position of [s]. *)
Fixpoint includes (pat s : string) : bool :=
  String.prefix pat s ||
  match s with
  | EmptyString => false
  | String _ rest => includes pat rest
  end.

(** [s.split(sep)] for a one-character separator: the maximal pieces
    between the separators, always at least one piece. *)
Fixpoint split (sep : ascii) (s : string) : list string :=
  match s with
  | EmptyString => [EmptyString]
  | String c rest =>
      if Ascii.eqb c sep then EmptyString :: split sep rest
      else match split sep rest with
           | piece :: pieces => String c piece :: pieces
           | [] => [String c EmptyString]
           end
  end.

Definition lower_ascii (c : ascii) : ascii :=
  let n := nat_of_ascii c in
  if (65 <=? n)%nat && (n <=? 90)%nat then ascii_of_nat (n + 32) else c.

(** [s.toLowerCase()] on the ASCII letters; every other code unit is
    kept.  The patterns the program looks for are ASCII. *)
Fixpoint toLowerCase (s : string) : string :=
  match s with
  | EmptyString => EmptyString
  | String c rest => String (lower_ascii c) (toLowerCase rest)
  end.

(** Does the character occur in the string? *)
Fixpoint has_char (c : ascii) (s : string) : bool :=
  match s with
  | EmptyString => false
  | String d rest => Ascii.eqb d c || has_char c rest
  end.

(** The decimal digits of an integer. *)
Definition decimal (z : Z) : string := NilEmpty.string_of_int (Z.to_int z).

(** A JavaScript number is a double.  For a positive integer: the double
    nearest to it, ties to the even mantissa, or nothing when that is
    beyond the largest double (the number is then [Infinity]). *)
Definition to_double (z : Z) : option Z :=
  let e := Z.log2 z in
  if (e <=? 52)%Z then Some z
  else
    let shift := (e - 52)%Z in
    let q := Z.shiftr z shift in
    let r := (z - Z.shiftl q shift)%Z in
    let half := Z.shiftl 1 (shift - 1) in
    let q' := if (half <? r)%Z || ((r =? half)%Z && Z.odd q)
              then (q + 1)%Z else q in
    let m := Z.shiftl q' shift in
    if (Z.log2 m <? 1024)%Z then Some m else None.

Definition reads_as (m candidate : Z) : bool :=
  match to_double candidate with
  | Some m' => (m' =? m)%Z
  | None => false
  end.

Definition digit_count (z : Z) : Z := Z.of_nat (String.length (decimal z)).

(** Is there an [s] of exactly [k] digits with [s * 10^(n-k)] reading back
    as the double [m]?  Of two, the one nearer to [m], and of two equally
    near the even one. *)
Definition with_digits (m k : Z) : option (Z * Z) :=
  let d := digit_count m in
  let p := (10 ^ (d - k))%Z in
  let lo := (m / p)%Z in
  let hi := (lo + 1)%Z in
  let fits s := (10 ^ (k - 1) <=? s)%Z && (s <? 10 ^ k)%Z
                && reads_as m (s * p) in
  match fits lo, fits hi with
  | true, true =>
      let below := (m - lo * p)%Z in
      let above := (hi * p - m)%Z in
      if (below <? above)%Z then Some (lo, d)
      else if (above <? below)%Z then Some (hi, d)
      else if Z.even lo then Some (lo, d) else Some (hi, d)
  | true, false => Some (lo, d)
  | false, true => Some (hi, d)
  | false, false =>
      if (k =? 1)%Z && reads_as m (10 ^ d) then Some (1%Z, (d + 1)%Z)
      else None
  end.

(** The fewest digits that read back as [m]: the digits [s], their number
    [k], and the position [n] of the decimal point. *)
Fixpoint shortest (fuel : nat) (m k : Z) : Z * Z * Z :=
  match fuel with
  | O => (m, digit_count m, digit_count m)
  | S fuel' =>
      if (digit_count m <? k)%Z then (m, digit_count m, digit_count m)
      else match with_digits m k with
           | Some (s, n) => (s, k, n)
           | None => shortest fuel' m (k + 1)%Z
           end
  end.

Fixpoint zeros (n : nat) : string :=
  match n with
  | O => EmptyString
  | S n' => String "0" (zeros n')
  end.

(** Number to string for a positive double with an integer value: plain
    digits below 10^21, exponent form from there on. *)
Definition positive_to_string (m : Z) : string :=
  let '(s, k, n) := shortest 17 m 1 in
  if (n <=? 21)%Z then append (decimal s) (zeros (Z.to_nat (n - k)))
  else
    let e := decimal (n - 1) in
    match decimal s with
    | String c EmptyString => String c (append "e+" e)
    | String c rest => String c (append "." (append rest (append "e+" e)))
    | EmptyString => EmptyString
    end.

(** Number to string, for the number an integer literal denotes. *)
Definition of_Z (z : Z) : string :=
  if (z =? 0)%Z then "0"
  else
    let body := match to_double (Z.abs z) with
                | Some m => positive_to_string m
                | None => "Infinity"
                end in
    if (z <? 0)%Z then String "-" body else body.

End JsString.

Import JsString.

(** ** JavaScript values *)

(** The values the program handles: what [response.json()] and
    [JSON.parse] produce, plus [undefined].  A number is given by the
    integer literal that denotes it and is read as a double, so [VNum z]
    is the double nearest to [z] (the response schema types its one
    numeric field as INTEGER); an object is its list of own properties. *)
Inductive value : Type :=
| VUndefined
| VNull
| VBool (b : bool)
| VNum (z : Z)
| VStr (s : string)
| VArr (items : list value)
| VObj (props : list (string * value)).

(** JavaScript truthiness, as used by [!x], [x && y] and [x || y]. *)
Definition truthy (v : value) : bool :=
  match v with
  | VUndefined | VNull => false
  | VBool b => b
  | VNum z => negb (z =? 0)%Z
  | VStr s => negb (String.eqb s "")
  | VArr _ | VObj _ => true
  end.

Inductive exn : Type :=
| TypeError
| SyntaxError
| NetworkError.

(** Result of an expression that may throw. *)
Inductive thrown (A : Type) : Type :=
| Val (a : A)
| Raise (e : exn).
Arguments Val {A} a.
Arguments Raise {A} e.

Definition thrown_bind {A B} (x : thrown A) (k : A -> thrown B) : thrown B :=
  match x with
  | Val a => k a
  | Raise e => Raise e
  end.

Notation "x <-! e1 ; e2" := (thrown_bind e1 (fun x => e2))
  (at level 100, e1 at next level, right associativity).

Fixpoint assoc (k : string) (props : list (string * value)) : option value :=
  match props with
  | [] => None
  | (k', v) :: rest => if String.eqb k k' then Some v else assoc k rest
  end.

Definition or_undefined (o : option value) : value :=
  match o with
  | Some v => v
  | None => VUndefined
  end.

(** [v.name] for the property names the program reads ([candidates],
    [content], [parts], [text], [overallStatus], ...).  None of them is
    defined on a prototype, so on anything but an object with that own
    property the access yields [undefined]; on [null] and [undefined] it
    throws. *)
Definition get_prop (v : value) (name : string) : thrown value :=
  match v with
  | VUndefined | VNull => Raise TypeError
  | VObj props => Val (or_undefined (assoc name props))
  | _ => Val VUndefined
  end.

(** [v[i]] for a numeric index. *)
Definition get_index (v : value) (i : nat) : thrown value :=
  match v with
  | VUndefined | VNull => Raise TypeError
  | VArr items => Val (or_undefined (items !! i))
  | VStr s => Val (match String.get i s with
                   | Some c => VStr (String c EmptyString)
                   | None => VUndefined
                   end)
  | VObj props => Val (or_undefined (assoc (of_Z (Z.of_nat i)) props))
  | _ => Val VUndefined
  end.

(** ** The API key (lines 9-18) *)

(** What reading [import.meta.env] may do: throw, or yield [undefined],
    or yield the table of environment variables (strings). *)
Inductive import_meta_env : Type :=
| EnvThrows
| EnvUndefined
| Env (vars : gmap string string).

Definition getApiKey (env : import_meta_env) : string :=
  match env with
  | EnvThrows => ""                                   (* catch (e) *)
  | EnvUndefined => ""                                (* env?. ; undefined || "" *)
  | Env vars =>
      match vars !! "VITE_GEMINI_API_KEY" with
      | Some key => if String.eqb key "" then "" else key   (* key || "" *)
      | None => ""
      end
  end.

(** ** Status colour (lines 137-142) *)

(** [status?.toLowerCase() || ''] *)
Definition status_lower (status : value) : thrown string :=
  match status with
  | VUndefined | VNull => Val ""
  | VStr s => Val (toLowerCase s)
  | _ => Raise TypeError          (* status.toLowerCase is not a function *)
  end.

Definition getStatusColor (status : value) (type : string) : thrown string :=
  s <-! status_lower status;
  if includes "well" s then
    Val (if String.eqb type "bg" then "bg-emerald-500" else "text-emerald-600")
  else if includes "mild" s then
    Val (if String.eqb type "bg" then "bg-amber-500" else "text-amber-600")
  else
    Val (if String.eqb type "bg" then "bg-rose-500" else "text-rose-600").

(** ** Platform objects *)

(** A media track is live until it is stopped; a media stream is its
    tracks.  The platform hands out streams; the program holds at most a
    reference (an index into [streams]) to one of them in [streamRef]. *)
Inductive readyState : Type := live | ended.

Definition stream : Type := list readyState.

Definition stop_tracks (s : stream) : stream := (fun _ => ended) <$> s.

Definition is_live (t : readyState) : bool :=
  match t with live => true | ended => false end.

(** A camera session is open while one of its tracks is live. *)
Definition session_open (s : stream) : bool := existsb is_live s.

(** The file the user picked: only its declared media type is read. *)
Record file : Type := { file_type : string }.

(** One outbound [fetch]: the URL, and the [inlineData] part of the body
    ([data] is absent from the JSON body when [base64Data] is undefined). *)
Record request : Type := {
  req_url : string;
  req_mimeType : string;
  req_data : option string
}.

(** How the awaited [fetch] and [response.json()] come back. *)
Inductive fetch_outcome : Type :=
| FetchRejected                 (* fetch() rejects: no network, CORS, ... *)
| BodyNotJson                   (* response.json() rejects *)
| BodyJson (data : value).      (* response.json() resolves to [data] *)

(** ** The world: component state, ref, and what is in flight *)

Record world : Type := {
  (* useState *)
  image : option string;
  isAnalyzing : bool;
  results : value;
  error : string;
  isCameraActive : bool;
  (* useRef *)
  streamRef : option nat;
  (* the platform *)
  streams : list stream;        (* every MediaStream handed out so far *)
  requests : list request;      (* every fetch issued so far, latest first *)
  pendingCamera : nat;          (* getUserMedia promises not yet settled *)
  pendingReads : nat;           (* FileReader reads not yet finished *)
  pendingFetch : nat;           (* fetch promises not yet settled *)
  dialogOpen : bool             (* the file picker is open *)
}.

Definition initial : world := {|
  image := None; isAnalyzing := false; results := VNull; error := "";
  isCameraActive := false; streamRef := None; streams := [];
  requests := []; pendingCamera := 0; pendingReads := 0; pendingFetch := 0;
  dialogOpen := false
|}.

Definition with_image (v : option string) (w : world) : world :=
  {| image := v; isAnalyzing := isAnalyzing w; results := results w;
     error := error w; isCameraActive := isCameraActive w;
     streamRef := streamRef w; streams := streams w; requests := requests w;
     pendingCamera := pendingCamera w; pendingReads := pendingReads w;
     pendingFetch := pendingFetch w; dialogOpen := dialogOpen w |}.

Definition with_isAnalyzing (v : bool) (w : world) : world :=
  {| image := image w; isAnalyzing := v; results := results w;
     error := error w; isCameraActive := isCameraActive w;
     streamRef := streamRef w; streams := streams w; requests := requests w;
     pendingCamera := pendingCamera w; pendingReads := pendingReads w;
     pendingFetch := pendingFetch w; dialogOpen := dialogOpen w |}.

Definition with_results (v : value) (w : world) : world :=
  {| image := image w; isAnalyzing := isAnalyzing w; results := v;
     error := error w; isCameraActive := isCameraActive w;
     streamRef := streamRef w; streams := streams w; requests := requests w;
     pendingCamera := pendingCamera w; pendingReads := pendingReads w;
     pendingFetch := pendingFetch w; dialogOpen := dialogOpen w |}.

Definition with_error (v : string) (w : world) : world :=
  {| image := image w; isAnalyzing := isAnalyzing w; results := results w;
     error := v; isCameraActive := isCameraActive w;
     streamRef := streamRef w; streams := streams w; requests := requests w;
     pendingCamera := pendingCamera w; pendingReads := pendingReads w;
     pendingFetch := pendingFetch w; dialogOpen := dialogOpen w |}.

Definition with_isCameraActive (v : bool) (w : world) : world :=
  {| image := image w; isAnalyzing := isAnalyzing w; results := results w;
     error := error w; isCameraActive := v;
     streamRef := streamRef w; streams := streams w; requests := requests w;
     pendingCamera := pendingCamera w; pendingReads := pendingReads w;
     pendingFetch := pendingFetch w; dialogOpen := dialogOpen w |}.

Definition with_streamRef (v : option nat) (w : world) : world :=
  {| image := image w; isAnalyzing := isAnalyzing w; results := results w;
     error := error w; isCameraActive := isCameraActive w;
     streamRef := v; streams := streams w; requests := requests w;
     pendingCamera := pendingCamera w; pendingReads := pendingReads w;
     pendingFetch := pendingFetch w; dialogOpen := dialogOpen w |}.

Definition with_streams (v : list stream) (w : world) : world :=
  {| image := image w; isAnalyzing := isAnalyzing w; results := results w;
     error := error w; isCameraActive := isCameraActive w;
     streamRef := streamRef w; streams := v; requests := requests w;
     pendingCamera := pendingCamera w; pendingReads := pendingReads w;
     pendingFetch := pendingFetch w; dialogOpen := dialogOpen w |}.

Definition with_requests (v : list request) (w : world) : world :=
  {| image := image w; isAnalyzing := isAnalyzing w; results := results w;
     error := error w; isCameraActive := isCameraActive w;
     streamRef := streamRef w; streams := streams w; requests := v;
     pendingCamera := pendingCamera w; pendingReads := pendingReads w;
     pendingFetch := pendingFetch w; dialogOpen := dialogOpen w |}.

Definition with_pendingCamera (v : nat) (w : world) : world :=
  {| image := image w; isAnalyzing := isAnalyzing w; results := results w;
     error := error w; isCameraActive := isCameraActive w;
     streamRef := streamRef w; streams := streams w; requests := requests w;
     pendingCamera := v; pendingReads := pendingReads w;
     pendingFetch := pendingFetch w; dialogOpen := dialogOpen w |}.

Definition with_pendingReads (v : nat) (w : world) : world :=
  {| image := image w; isAnalyzing := isAnalyzing w; results := results w;
     error := error w; isCameraActive := isCameraActive w;
     streamRef := streamRef w; streams := streams w; requests := requests w;
     pendingCamera := pendingCamera w; pendingReads := v;
     pendingFetch := pendingFetch w; dialogOpen := dialogOpen w |}.

Definition with_pendingFetch (v : nat) (w : world) : world :=
  {| image := image w; isAnalyzing := isAnalyzing w; results := results w;
     error := error w; isCameraActive := isCameraActive w;
     streamRef := streamRef w; streams := streams w; requests := requests w;
     pendingCamera := pendingCamera w; pendingReads := pendingReads w;
     pendingFetch := v; dialogOpen := dialogOpen w |}.

Definition with_dialogOpen (v : bool) (w : world) : world :=
  {| image := image w; isAnalyzing := isAnalyzing w; results := results w;
     error := error w; isCameraActive := isCameraActive w;
     streamRef := streamRef w; streams := streams w; requests := requests w;
     pendingCamera := pendingCamera w; pendingReads := pendingReads w;
     pendingFetch := pendingFetch w; dialogOpen := v |}.

(** ** Handlers as computations *)

(** A handler runs on the world and either completes or throws, in both
    cases leaving the world as it made it. *)
Inductive outcome (A : Type) : Type :=
| Ok (a : A) (w : world)
| Throw (e : exn) (w : world).
Arguments Ok {A} a w.
Arguments Throw {A} e w.

Definition M (A : Type) : Type := world -> outcome A.

Definition ret {A} (a : A) : M A := fun w => Ok a w.

Definition bind {A B} (m : M A) (k : A -> M B) : M B :=
  fun w => match m w with
           | Ok a w' => k a w'
           | Throw e w' => Throw e w'
           end.

Notation "x <- e1 ;; e2" := (bind e1 (fun x => e2))
  (at level 100, e1 at next level, right associativity).
Notation "e1 ;; e2" := (bind e1 (fun _ => e2))
  (at level 100, right associativity).

Definition read {A} (f : world -> A) : M A := fun w => Ok (f w) w.
Definition modify (f : world -> world) : M unit := fun w => Ok tt (f w).

(** An expression that may throw, evaluated inside a handler. *)
Definition lift {A} (x : thrown A) : M A :=
  fun w => match x with
           | Val a => Ok a w
           | Raise e => Throw e w
           end.

(** [try { body } catch (err) { handler }] *)
Definition try_catch (body : M unit) (handler : exn -> M unit) : M unit :=
  fun w => match body w with
           | Ok a w' => Ok a w'
           | Throw e w' => handler e w'
           end.

(** [try { body } finally { final }]: [final] runs on both exits and a
    throw of the body is thrown again after it. *)
Definition try_finally (body : M unit) (final : M unit) : M unit :=
  fun w => match body w with
           | Ok _ w' => final w'
           | Throw e w' => match final w' with
                           | Ok _ w'' => Throw e w''
                           | Throw e' w'' => Throw e' w''
                           end
           end.

Definition world_of {A} (o : outcome A) : world :=
  match o with
  | Ok _ w => w
  | Throw _ w => w
  end.

Definition completes {A} (o : outcome A) : Prop :=
  match o with
  | Ok _ _ => True
  | Throw _ _ => False
  end.

(* the state setters of the component *)
Definition setImage (v : option string) : M unit := modify (with_image v).
Definition setIsAnalyzing (v : bool) : M unit := modify (with_isAnalyzing v).
Definition setResults (v : value) : M unit := modify (with_results v).
Definition setError (v : string) : M unit := modify (with_error v).
Definition setIsCameraActive (v : bool) : M unit :=
  modify (with_isCameraActive v).

(** ** What is on screen (lines 153-196) *)

(** [image] as a condition: [null] and the empty string are falsy. *)
Definition image_present (w : world) : bool :=
  match image w with
  | Some s => negb (String.eqb s "")
  | None => false
  end.

(** The panels the [return (...)] of [App] asks for, each with its
    condition.  Building the result panel can throw; [screen], below, is
    what is then displayed. *)
Record view : Type := {
  error_banner : bool;      (* error && ... *)
  idle_panel : bool;        (* !image && !isCameraActive: Camera, Upload *)
  camera_panel : bool;      (* isCameraActive: video, capture button *)
  preview_panel : bool;     (* image && !results && !isAnalyzing *)
  spinner : bool;           (* isAnalyzing *)
  result_panel : bool       (* results: score, Try Again *)
}.

Definition render (w : world) : view := {|
  error_banner := negb (String.eqb (error w) "");
  idle_panel := negb (image_present w) && negb (isCameraActive w);
  camera_panel := isCameraActive w;
  preview_panel :=
    image_present w && negb (truthy (results w)) && negb (isAnalyzing w);
  spinner := isAnalyzing w;
  result_panel := truthy (results w)
|}.

(** The text React puts on screen for a child [{v}]; a number is printed
    as JavaScript prints it ([of_Z]). *)
Fixpoint child_text (v : value) : thrown string :=
  match v with
  | VUndefined | VNull | VBool _ => Val ""
  | VNum z => Val (of_Z z)
  | VStr s => Val s
  | VArr items =>
      (fix children (l : list value) : thrown string :=
         match l with
         | [] => Val ""
         | x :: rest =>
             a <-! child_text x; b <-! children rest; Val (a +:+ b)
         end) items
  | VObj _ => Raise TypeError     (* objects are not valid as a child *)
  end.

(** The result panel (lines 185-193). *)
Record result_view : Type := {
  header_class : string;    (* getStatusColor(results.overallStatus, 'bg') *)
  score_text : string;      (* {results.dehydrationScore}% *)
  status_text : string;     (* {results.overallStatus} *)
  moisture_text : string;
  texture_text : string
}.

Definition render_results (r : value) : thrown result_view :=
  status <-! get_prop r "overallStatus";
  cls <-! getStatusColor status "bg";
  score <-! get_prop r "dehydrationScore";
  score_s <-! child_text score;
  status_s <-! child_text status;
  moisture <-! get_prop r "moisture";
  moisture_s <-! child_text moisture;
  dryness <-! get_prop r "dryness";
  dryness_s <-! child_text dryness;
  Val {| header_class := cls; score_text := score_s +:+ "%";
         status_text := status_s; moisture_text := moisture_s;
         texture_text := dryness_s |}.

(** What is displayed for a state: the panels asked for, or nothing when
    building the result panel throws (React then removes the whole tree,
    and nothing is displayed from then on). *)
Definition screen (w : world) : option view :=
  if truthy (results w) then
    match render_results (results w) with
    | Val _ => Some (render w)
    | Raise _ => None
    end
  else Some (render w).

(** ** The handlers (lines 31-135) *)

(** The [<video>] element is mounted, and [videoRef.current] set, exactly
    while the camera panel is rendered. *)
Definition videoRef_current (w : world) : bool := isCameraActive w.

Definition readAsDataURL : M unit :=
  modify (fun w => with_pendingReads (S (pendingReads w)) w).

Definition handleImageUpload (picked : option file) : M unit :=
  match picked with
  | None => ret tt
  | Some f =>
      if negb (startsWith "image/" (file_type f)) then
        setError "Please upload a valid image file."
      else readAsDataURL
  end.

Definition reader_onload (result : string) : M unit :=
  setImage (Some result);;
  setResults VNull;;
  setError "".

Definition triggerFileInput : M unit := modify (with_dialogOpen true).

Definition getUserMedia : M unit :=
  modify (fun w => with_pendingCamera (S (pendingCamera w)) w).

(** [startCamera] up to its [await]. *)
Definition startCamera : M unit :=
  setError "";;
  getUserMedia.

(** [startCamera] after the [await], when the platform hands out [s]. *)
Definition startCamera_granted (s : stream) : M unit :=
  i <- read (fun w => length (streams w));;
  modify (fun w => with_streams (streams w ++ [s]) w);;
  modify (with_streamRef (Some i));;
  setIsCameraActive true.

(** [startCamera] after the [await], when the promise rejects. *)
Definition startCamera_denied : M unit :=
  setError "Could not access camera. Please check permissions or upload a photo.".

Definition stopCamera : M unit :=
  current <- read streamRef;;
  match current with
  | Some i =>
      modify (fun w => with_streams (alter stop_tracks i (streams w)) w);;
      modify (with_streamRef None)
  | None => ret tt
  end;;
  setIsCameraActive false.

(** [frame] is what [canvas.toDataURL('image/jpeg', 0.8)] returns. *)
Definition capturePhoto (frame : string) : M unit :=
  mounted <- read videoRef_current;;
  if mounted then
    setImage (Some frame);;
    stopCamera
  else ret tt.

(** [image.split(',')[1]] *)
Definition base64Data (image : string) : option string :=
  split "," image !! 1.

Definition endpoint : string :=
  "https://generativelanguage.googleapis.com/v1beta/models/gemini-2.5-flash-preview-09-2025:generateContent?key=".

Definition fetch (r : request) : M unit :=
  modify (fun w =>
    with_pendingFetch (S (pendingFetch w)) (with_requests (r :: requests w) w)).

(** [data.candidates[0].content.parts[0].text] *)
Definition response_text (data : value) : thrown value :=
  candidates <-! get_prop data "candidates";
  candidate <-! get_index candidates 0;
  content <-! get_prop candidate "content";
  parts <-! get_prop content "parts";
  part <-! get_index parts 0;
  get_prop part "text".

(** [await fetch(...)] followed by [await response.json()] *)
Definition await_json (o : fetch_outcome) : thrown value :=
  match o with
  | FetchRejected => Raise NetworkError
  | BodyNotJson => Raise SyntaxError
  | BodyJson data => Val data
  end.

Definition retake : M unit := setImage None.        (* line 177 *)
Definition tryAgain : M unit := setResults VNull.   (* line 194 *)

(** ** Events *)

Inductive event : Type :=
| ClickCamera
| CameraGranted (s : stream)
| CameraDenied
| ClickCapture (frame : string)
| ClickUpload
| FileInputChange (picked : option file)
| ReaderLoaded (result : string)
| ReaderFailed
| ClickAnalyze
| FetchSettled (o : fetch_outcome)
| ClickRetake
| ClickTryAgain.

(** What the platform promises about the values it passes in: a data URL
    starts with [data:], and a stream handed out by [getUserMedia] has
    tracks, all live. *)
Definition is_data_url (s : string) : bool := startsWith "data:" s.

Definition fresh_stream (s : stream) : bool :=
  match s with
  | [] => false
  | _ => forallb is_live s
  end.

(** An event can happen when the panel with the control it needs is asked
    for, or when the asynchronous operation it completes is in flight.
    Runs along which every render succeeds are [reach_rendered]. *)
Definition enabled (w : world) (ev : event) : bool :=
  match ev with
  | ClickCamera | ClickUpload => idle_panel (render w)
  | CameraGranted s => (0 <? pendingCamera w)%nat && fresh_stream s
  | CameraDenied => (0 <? pendingCamera w)%nat
  | ClickCapture frame => camera_panel (render w) && is_data_url frame
  | FileInputChange _ => dialogOpen w
  | ReaderLoaded result => (0 <? pendingReads w)%nat && is_data_url result
  | ReaderFailed => (0 <? pendingReads w)%nat
  | ClickAnalyze | ClickRetake => preview_panel (render w)
  | FetchSettled _ => (0 <? pendingFetch w)%nat
  | ClickTryAgain => result_panel (render w)
  end.

(** ** Notions the properties are stated with *)

(** The spec's words for the encoder: everything after the first
    separator, if there is one. *)
Fixpoint after_first (sep : ascii) (s : string) : option string :=
  match s with
  | EmptyString => None
  | String c rest => if Ascii.eqb c sep then Some rest else after_first sep rest
  end.

(** Everything before the first separator. *)
Fixpoint before_first (sep : ascii) (s : string) : string :=
  match s with
  | EmptyString => EmptyString
  | String c rest =>
      if Ascii.eqb c sep then EmptyString else String c (before_first sep rest)
  end.

(** The base64 alphabet, with the padding character. *)
Definition base64_char (c : ascii) : bool :=
  let n := nat_of_ascii c in
  ((65 <=? n) && (n <=? 90) || (97 <=? n) && (n <=? 122)
   || (48 <=? n) && (n <=? 57) || (n =? 43) || (n =? 47) || (n =? 61))%nat.

Fixpoint is_base64 (s : string) : bool :=
  match s with
  | EmptyString => true
  | String c rest => base64_char c && is_base64 rest
  end.

(** The data URL that [canvas.toDataURL] and [FileReader.readAsDataURL]
    build from a media type and the base64 of the bytes. *)
Definition base64_data_url (mime payload : string) : string :=
  "data:" +:+ mime +:+ ";base64," +:+ payload.

(** [pat] occurs in [s] when letter case is ignored: some piece of [s]
    lower-cases to [pat]. *)
Definition contains_ci (pat s : string) : Prop :=
  exists pre mid post, s = pre +:+ mid +:+ post /\ toLowerCase mid = pat.

(** The three classifications and the colour classes that show them. *)
Inductive classification : Type := healthy | caution | alert.

Definition class_name (c : classification) (type : string) : string :=
  match c with
  | healthy => if String.eqb type "bg" then "bg-emerald-500" else "text-emerald-600"
  | caution => if String.eqb type "bg" then "bg-amber-500" else "text-amber-600"
  | alert => if String.eqb type "bg" then "bg-rose-500" else "text-rose-600"
  end.

(** ** Sample data for the examples *)

Module Sample.

Definition env : import_meta_env :=
  Env {[ "VITE_GEMINI_API_KEY" := "k-123" ]}.

Definition no_key_env : import_meta_env := Env ∅.

Definition result : value :=
  VObj [("overallStatus", VStr "Well Hydrated");
        ("dehydrationScore", VNum 82);
        ("crackness", VStr "none");
        ("dryness", VStr "smooth");
        ("moisture", VStr "good");
        ("color", VStr "pink");
        ("recommendations", VArr [VStr "Keep drinking water"])].

(** A stand-in for [JSON.parse] that knows one text. *)
Definition JSON_parse (v : value) : thrown value :=
  match v with
  | VStr s => if String.eqb s "<the sample result as JSON>" then Val result
              else Raise SyntaxError
  | _ => Raise SyntaxError
  end.

Definition envelope (text : value) : value :=
  VObj [("candidates",
         VArr [VObj [("content", VObj [("parts", VArr [VObj [("text", text)]])])]])].

Definition success : fetch_outcome :=
  BodyJson (envelope (VStr "<the sample result as JSON>")).

(** What the API answers to a request without a valid key. *)
Definition key_rejected : fetch_outcome :=
  BodyJson (VObj [("error", VObj [("code", VNum 400);
                                  ("status", VStr "INVALID_ARGUMENT")])]).

Definition upload : string := "data:image/png;base64,iVBORw0KGgo=".
Definition frame : string := "data:image/jpeg;base64,/9j/4AAQSkZJRg==".

Definition png : file := {| file_type := "image/png" |}.
Definition pdf : file := {| file_type := "application/pdf" |}.

(** Upload a picture and press "Analyze Now". *)
Definition analysing : list event :=
  [ClickUpload; FileInputChange (Some png); ReaderLoaded upload; ClickAnalyze].

(** ... and the analysis succeeds. *)
Definition analysed : list event := analysing ++ [FetchSettled success].

(** Press Camera and, while the permission prompt is still up, upload a
    picture and have it analysed; then grant the camera and capture. *)
Definition late_capture : list event :=
  ClickCamera :: analysed ++ [CameraGranted [live]; ClickCapture frame].

(** Press Camera twice before the platform answers; the first request is
    granted and the second denied; then capture. *)
Definition denied_then_capture : list event :=
  [ClickCamera; ClickCamera; CameraGranted [live]; CameraDenied;
   ClickCapture frame].

(** Press Camera twice before the platform answers; both are granted. *)
Definition double_camera : list event :=
  [ClickCamera; ClickCamera; CameraGranted [live]; CameraGranted [live]].

Definition camera_on : list event := [ClickCamera; CameraGranted [live]].

End Sample.

(** ** The component *)

Section App.

(** The environment the bundle was built in, and [JSON.parse] (applied to
    whatever value [text] holds; it throws on anything that is not JSON). *)
Variable env : import_meta_env.
Variable JSON_parse : value -> thrown value.

Definition apiKey : string := getApiKey env.

(** [analyzeLips] up to its first [await]. *)
Definition analyzeLips : M unit :=
  img <- read image;;
  match img with
  | None => ret tt                                   (* if (!image) return *)
  | Some s =>
      if String.eqb s "" then ret tt
      else
        setIsAnalyzing true;;
        setError "";;
        fetch {| req_url := endpoint +:+ apiKey;
                 req_mimeType := "image/jpeg";
                 req_data := base64Data s |}
  end.

(** [analyzeLips] from the settled [fetch] to its end. *)
Definition analyzeLips_resume (o : fetch_outcome) : M unit :=
  try_finally
    (try_catch
       (data <- lift (await_json o);;
        resultText <- lift (response_text data);;
        parsed <- lift (JSON_parse resultText);;
        setResults parsed)
       (fun _ =>
          setError "Analysis failed. Check your API key in Vercel settings."))
    (setIsAnalyzing false).

(** ** Running events *)

Definition handle (ev : event) : M unit :=
  match ev with
  | ClickCamera => startCamera
  | CameraGranted s =>
      modify (fun w => with_pendingCamera (pred (pendingCamera w)) w);;
      startCamera_granted s
  | CameraDenied =>
      modify (fun w => with_pendingCamera (pred (pendingCamera w)) w);;
      startCamera_denied
  | ClickCapture frame => capturePhoto frame
  | ClickUpload => triggerFileInput
  | FileInputChange picked =>
      modify (with_dialogOpen false);;
      handleImageUpload picked
  | ReaderLoaded result =>
      modify (fun w => with_pendingReads (pred (pendingReads w)) w);;
      reader_onload result
  | ReaderFailed =>
      modify (fun w => with_pendingReads (pred (pendingReads w)) w)
  | ClickAnalyze => analyzeLips
  | FetchSettled o =>
      modify (fun w => with_pendingFetch (pred (pendingFetch w)) w);;
      analyzeLips_resume o
  | ClickRetake => retake
  | ClickTryAgain => tryAgain
  end.

Definition step (w : world) (ev : event) : option world :=
  if enabled w ev then Some (world_of (handle ev w)) else None.

Fixpoint run (w : world) (evs : list event) : option world :=
  match evs with
  | [] => Some w
  | ev :: rest =>
      match step w ev with
      | Some w' => run w' rest
      | None => None
      end
  end.

Definition reachable (w : world) : Prop :=
  exists evs, run initial evs = Some w.

(** The world after the events [evs] from the start. *)
Definition after (evs : list event) : world := default initial (run initial evs).

(** ** Runs and their invariants *)

(** Reachability, one event at a time. *)
Inductive reach : world -> Prop :=
| reach_initial : reach initial
| reach_step w ev w' : reach w -> step w ev = Some w' -> reach w'.

(** Runs in which the Camera button is not pressed again while an earlier
    camera request is still pending. *)
Inductive reach_one_request : world -> Prop :=
| one_request_initial : reach_one_request initial
| one_request_step w ev w' :
    reach_one_request w ->
    step w ev = Some w' ->
    (ev = ClickCamera -> pendingCamera w = 0) ->
    reach_one_request w'.

(** The session behind stream [i] is open. *)
Definition open_at (w : world) (i : nat) : bool :=
  match streams w !! i with
  | Some s => session_open s
  | None => false
  end.

(** What the awaited part of [analyzeLips] evaluates to inside [try]. *)
Definition analysis_result (o : fetch_outcome) : thrown value :=
  data <-! await_json o;
  resultText <-! response_text data;
  JSON_parse resultText.

(** The failures of an analysis, by kind. *)
Inductive analysis_failure : fetch_outcome -> Prop :=
| failure_network : analysis_failure FetchRejected
| failure_body : analysis_failure BodyNotJson
| failure_envelope data e :
    response_text data = Raise e -> analysis_failure (BodyJson data)
| failure_parse data resultText e :
    response_text data = Val resultText ->
    JSON_parse resultText = Raise e ->
    analysis_failure (BodyJson data).

Definition analysis_failed_message : string :=
  "Analysis failed. Check your API key in Vercel settings.".

Definition invalid_input_message : string :=
  "Please upload a valid image file.".

(** What holds of the analysis along every run. *)
Record analysis_inv (w : world) : Prop := {
  inv_pending : pendingFetch w = if isAnalyzing w then 1 else 0;
  inv_analyzing_image : isAnalyzing w = true -> image_present w = true;
  inv_results_image : truthy (results w) = true -> image_present w = true;
  inv_results_idle : truthy (results w) = true -> isAnalyzing w = false
}.

(** What holds of the camera along runs with one request at a time. *)
Record camera_inv (w : world) : Prop := {
  inv_one_pending : pendingCamera w <= 1;
  inv_pending_inactive : pendingCamera w = 1 -> isCameraActive w = false;
  inv_inactive_no_ref : isCameraActive w = false -> streamRef w = None;
  inv_open_is_ref : forall i, open_at w i = true -> streamRef w = Some i
}.


(** ** The video element (lines 64-68) *)

Definition camera_denied_message : string :=
  "Could not access camera. Please check permissions or upload a photo.".

(** The messages the component can put in [error]. *)
Definition known_error (s : string) : Prop :=
  s = "" \/ s = invalid_input_message \/ s = camera_denied_message \/
  s = analysis_failed_message.

(** The page is the world together with the stream the [<video>] element
    plays, its [srcObject]: nothing while no element is mounted or none
    was assigned. *)
Record page : Type := {
  page_world : world;
  srcObject : option nat
}.

Definition initial_page : page :=
  {| page_world := initial; srcObject := None |}.

(** The body of the effect:
    [if (isCameraActive && videoRef.current && streamRef.current)
       videoRef.current.srcObject = streamRef.current]. *)
Definition attach_stream (w : world) (src : option nat) : option nat :=
  if isCameraActive w && videoRef_current w then
    match streamRef w with
    | Some i => Some i
    | None => src
    end
  else src.

(** What a render does to the video element: the element lives while the
    camera panel is rendered (a new one starts with no source), and the
    effect runs only after a render in which [isCameraActive], its one
    dependency, has changed. *)
Definition commit (before after : world) (src : option nat) : option nat :=
  let element :=
    if isCameraActive after then
      if isCameraActive before then src else None
    else None in
  if Bool.eqb (isCameraActive before) (isCameraActive after) then element
  else attach_stream after element.

Definition step_page (p : page) (ev : event) : option page :=
  match step (page_world p) ev with
  | Some w' =>
      Some {| page_world := w';
              srcObject := commit (page_world p) w' (srcObject p) |}
  | None => None
  end.

Inductive reach_page : page -> Prop :=
| reach_page_initial : reach_page initial_page
| reach_page_step p ev p' :
    reach_page p -> step_page p ev = Some p' -> reach_page p'.

Inductive reach_page_one_request : page -> Prop :=
| page_one_request_initial : reach_page_one_request initial_page
| page_one_request_step p ev p' :
    reach_page_one_request p ->
    step_page p ev = Some p' ->
    (ev = ClickCamera -> pendingCamera (page_world p) = 0) ->
    reach_page_one_request p'.

(** Runs along which no render has thrown, so that the tree is still
    mounted. *)
Inductive reach_rendered : world -> Prop :=
| rendered_initial : reach_rendered initial
| rendered_step w ev w' v :
    reach_rendered w ->
    step w ev = Some w' ->
    screen w' = Some v ->
    reach_rendered w'.

Fixpoint run_rendered (w : world) (evs : list event) : option world :=
  match evs with
  | [] => Some w
  | ev :: rest =>
      match step w ev with
      | Some w' =>
          match screen w' with
          | Some _ => run_rendered w' rest
          | None => None
          end
      | None => None
      end
  end.

Fixpoint run_page (p : page) (evs : list event) : option page :=
  match evs with
  | [] => Some p
  | ev :: rest =>
      match step_page p ev with
      | Some p' => run_page p' rest
      | None => None
      end
  end.

(** The statuses [getStatusColor] accepts: absent ones and strings. *)
Definition absent_or_string (status : value) : bool :=
  match status with
  | VUndefined | VNull | VStr _ => true
  | _ => false
  end.

(** ** Proof steps that recur *)

(** Unfold the handlers and the monad down to record updates. *)
Ltac handler_unfold :=
  unfold step, handle, startCamera, getUserMedia, startCamera_granted,
    startCamera_denied, capturePhoto, stopCamera, videoRef_current,
    triggerFileInput, handleImageUpload, readAsDataURL, reader_onload,
    analyzeLips, fetch, retake, tryAgain, setImage, setIsAnalyzing,
    setResults, setError, setIsCameraActive, bind, modify, read, ret,
    world_of in *.

(** Split an invariant into its fields. *)
Ltac inv_fields :=
  constructor; unfold image_present in *; simpl in *.

Ltac cam_fields := constructor; unfold open_at in *; simpl in *.

(** * Properties *)

(** ** Strings *)

Lemma prefix_iff pat s :
  String.prefix pat s = true <-> exists post, s = pat +:+ post.
Proof.
  revert s. induction pat as [|c pat IH]; intros s; simpl.
  - split; [intros _; now exists s | now destruct s].
  - destruct s as [|d s]; simpl.
    + split; [discriminate | intros [post H]; discriminate].
    + destruct (ascii_dec c d) as [->|Hne].
      * rewrite IH. split; intros [post H]; exists post; simpl in *; congruence.
      * split; [discriminate | intros [post H]; simpl in H; congruence].
Qed.

Lemma includes_iff pat s :
  includes pat s = true <-> exists pre post, s = pre +:+ pat +:+ post.
Proof.
  induction s as [|c s IH].
  - cbn [includes]. rewrite orb_false_r, prefix_iff. split.
    + intros [post H]. now exists EmptyString, post.
    + intros [[|d pre] [post H]]; [now exists post | discriminate].
  - cbn [includes]. rewrite orb_true_iff, prefix_iff, IH. split.
    + intros [[post H]|[pre [post H]]].
      * now exists EmptyString, post.
      * exists (String c pre), post. simpl. now rewrite H.
    + intros [[|d pre] [post H]].
      * left. now exists post.
      * right. exists pre, post. simpl in H. congruence.
Qed.

Lemma append_assoc a b c : (a +:+ b) +:+ c = a +:+ b +:+ c.
Proof. induction a as [|x a IH]; simpl; [reflexivity | now rewrite IH]. Qed.

Lemma toLowerCase_app a b :
  toLowerCase (a +:+ b) = toLowerCase a +:+ toLowerCase b.
Proof. induction a as [|c a IH]; simpl; [reflexivity | now rewrite IH]. Qed.

Lemma toLowerCase_split s a b :
  toLowerCase s = a +:+ b ->
  exists a0 b0, s = a0 +:+ b0 /\ toLowerCase a0 = a /\ toLowerCase b0 = b.
Proof.
  revert s. induction a as [|c a IH]; intros s H.
  - now exists EmptyString, s.
  - destruct s as [|d s]; [discriminate|]. simpl in H.
    injection H as Hc Hs. destruct (IH _ Hs) as (a0 & b0 & -> & <- & <-).
    exists (String d a0), b0. simpl. now rewrite Hc.
Qed.

(** Matching on the lower-cased status is matching with case ignored. *)
Lemma includes_toLowerCase pat s :
  includes pat (toLowerCase s) = true <-> contains_ci pat s.
Proof.
  rewrite includes_iff. split.
  - intros (pre & post & H).
    destruct (toLowerCase_split _ _ _ H) as (pre0 & r & -> & _ & Hr).
    destruct (toLowerCase_split _ _ _ Hr) as (mid & post0 & -> & Hm & _).
    now exists pre0, mid, post0.
  - intros (pre & mid & post & -> & <-).
    exists (toLowerCase pre), (toLowerCase post).
    now rewrite !toLowerCase_app.
Qed.

Lemma split_no_sep sep s : has_char sep s = false -> split sep s = [s].
Proof.
  induction s as [|c s IH]; simpl; [reflexivity|].
  intros [Hc Hs]%orb_false_iff. rewrite Hc, (IH Hs). reflexivity.
Qed.

Lemma after_first_at sep pre rest :
  has_char sep pre = false ->
  after_first sep (pre +:+ String sep rest) = Some rest.
Proof.
  induction pre as [|c pre IH]; simpl.
  - intros _. now rewrite Ascii.eqb_refl.
  - intros [Hc Hs]%orb_false_iff. now rewrite Hc, (IH Hs).
Qed.

Lemma has_char_app c a b : has_char c (a +:+ b) = has_char c a || has_char c b.
Proof.
  induction a as [|d a IH]; simpl; [reflexivity|].
  now rewrite IH, orb_assoc.
Qed.

Lemma base64_no_comma s : is_base64 s = true -> has_char "," s = false.
Proof.
  induction s as [|c s IH]; simpl; [reflexivity|].
  intros [Hc Hs]%andb_true_iff. rewrite (IH Hs), orb_false_r.
  destruct (Ascii.eqb_spec c ","); [subst c; discriminate | reflexivity].
Qed.

(** ** Handlers *)

Lemma data_url_nonempty s : is_data_url s = true -> String.eqb s "" = false.
Proof. destruct s; [discriminate | reflexivity]. Qed.

Lemma step_inv w ev w' :
  step w ev = Some w' -> enabled w ev = true /\ w' = world_of (handle ev w).
Proof.
  unfold step. destruct (enabled w ev); [|discriminate].
  intros [= <-]. split; reflexivity.
Qed.

Lemma run_app w evs evs' :
  run w (evs ++ evs') =
  match run w evs with
  | Some w' => run w' evs'
  | None => None
  end.
Proof.
  revert w. induction evs as [|ev evs IH]; intros w; simpl; [reflexivity|].
  destruct (step w ev); [apply IH | reflexivity].
Qed.

Lemma run_reach w evs w' : reach w -> run w evs = Some w' -> reach w'.
Proof.
  revert w. induction evs as [|ev evs IH]; intros w Hw; simpl.
  - now intros [= <-].
  - destruct (step w ev) as [w1|] eqn:Hstep; [|discriminate].
    apply IH. eapply reach_step; eassumption.
Qed.

Lemma reachable_reach w : reachable w <-> reach w.
Proof.
  split.
  - intros [evs H]. eapply run_reach; [apply reach_initial | exact H].
  - induction 1 as [|w ev w' _ [evs IH] Hstep].
    + now exists [].
    + exists (evs ++ [ev])%list. rewrite run_app, IH. simpl. now rewrite Hstep.
Qed.

(** The awaited part of [analyzeLips] always completes: with the parsed
    result stored, or with the one failure message, and with the
    analyzing flag cleared either way. *)
Lemma analyzeLips_resume_eq o w :
  analyzeLips_resume o w =
  Ok tt (with_isAnalyzing false
           match analysis_result o with
           | Val parsed => with_results parsed w
           | Raise _ => with_error analysis_failed_message w
           end).
Proof.
  unfold analyzeLips_resume, analysis_result, try_finally, try_catch, bind,
    lift, setResults, setError, setIsAnalyzing, modify.
  destruct o as [| |data]; simpl; try reflexivity.
  destruct (response_text data) as [resultText|e]; simpl; [|reflexivity].
  destruct (JSON_parse resultText); reflexivity.
Qed.

Lemma analysis_failure_iff o :
  analysis_failure o <-> exists e, analysis_result o = Raise e.
Proof.
  unfold analysis_result. split.
  - intros [| |data e H|data t e H1 H2]; simpl.
    + now exists NetworkError.
    + now exists SyntaxError.
    + rewrite H. now exists e.
    + rewrite H1. simpl. now exists e.
  - intros [e H]. destruct o as [| |data]; simpl in H.
    + constructor.
    + constructor.
    + destruct (response_text data) as [t|e'] eqn:Ht; simpl in H.
      * eapply failure_parse; eassumption.
      * eapply failure_envelope; eassumption.
Qed.

(** No handler lets an exception escape. *)
Lemma handle_completes ev w : completes (handle ev w).
Proof.
  destruct ev; cbn [handle]; unfold bind, modify;
    rewrite ?analyzeLips_resume_eq; handler_unfold; simpl; try exact I.
  - destruct (isCameraActive w); simpl; [|exact I].
    destruct (streamRef w); exact I.
  - destruct picked as [f|]; simpl; [|exact I].
    destruct (startsWith "image/" (file_type f)); exact I.
  - destruct (image w) as [s|]; simpl; [|exact I].
    destruct (String.eqb s ""); exact I.
Qed.

Lemma analysis_inv_step w ev w' :
  analysis_inv w -> step w ev = Some w' -> analysis_inv w'.
Proof.
  intros [Hp Hai Hri Hrd] [Hen ->]%step_inv.
  destruct ev; cbn [handle enabled] in Hen |- *.
  - (* ClickCamera *)
    handler_unfold. inv_fields; assumption.
  - (* CameraGranted *)
    handler_unfold. inv_fields; assumption.
  - (* CameraDenied *)
    handler_unfold. inv_fields; assumption.
  - (* ClickCapture *)
    apply andb_true_iff in Hen as [Hcam Hd%data_url_nonempty].
    simpl in Hcam. handler_unfold. simpl. rewrite Hcam.
    destruct (streamRef w); inv_fields; rewrite ?Hd; auto.
  - (* ClickUpload *)
    handler_unfold. inv_fields; assumption.
  - (* FileInputChange *)
    handler_unfold. destruct picked as [f|]; simpl; [|inv_fields; assumption].
    destruct (startsWith "image/" (file_type f)); inv_fields; assumption.
  - (* ReaderLoaded *)
    apply andb_true_iff in Hen as [_ Hd%data_url_nonempty].
    handler_unfold. inv_fields; rewrite ?Hd; auto; discriminate.
  - (* ReaderFailed *)
    handler_unfold. inv_fields; assumption.
  - (* ClickAnalyze *)
    unfold render, image_present in Hen. simpl in Hen.
    apply andb_true_iff in Hen as [[Hi Hr%negb_true_iff]%andb_true_iff Ha%negb_true_iff].
    handler_unfold. simpl. unfold image_present in *.
    destruct (image w) as [s|] eqn:Himg; [|discriminate].
    apply negb_true_iff in Hi. rewrite Hi.
    inv_fields; rewrite ?Himg, ?Hi, ?Hr, ?Ha in *; auto; try discriminate.
  - (* FetchSettled *)
    apply Nat.ltb_lt in Hen.
    assert (Han : isAnalyzing w = true).
    { destruct (isAnalyzing w); [reflexivity | lia]. }
    rewrite Han in Hp.
    unfold bind, modify. rewrite analyzeLips_resume_eq. simpl.
    destruct (analysis_result o); inv_fields; rewrite ?Hp; auto; discriminate.
  - (* ClickRetake *)
    unfold render in Hen. simpl in Hen.
    apply andb_true_iff in Hen as [[Hi Hr%negb_true_iff]%andb_true_iff Ha%negb_true_iff].
    handler_unfold. inv_fields; rewrite ?Hr, ?Ha in *; auto; try discriminate.
  - (* ClickTryAgain *)
    handler_unfold. inv_fields; auto; discriminate.
Qed.

Lemma analysis_inv_reach w : reach w -> analysis_inv w.
Proof.
  induction 1 as [|w ev w' _ IH Hstep].
  - constructor; simpl; auto; discriminate.
  - eapply analysis_inv_step; eassumption.
Qed.

Lemma stop_tracks_closed s : session_open (stop_tracks s) = false.
Proof. induction s as [|t s IH]; simpl; [reflexivity | exact IH]. Qed.

Lemma stop_tracks_all_ended s : Forall (fun t => t = ended) (stop_tracks s).
Proof. induction s as [|t s IH]; simpl; constructor; auto. Qed.

Lemma camera_inv_step w ev w' :
  camera_inv w ->
  step w ev = Some w' ->
  (ev = ClickCamera -> pendingCamera w = 0) ->
  camera_inv w'.
Proof.
  intros [Hone Hpi Hin Hop] [Hen ->]%step_inv Hseq.
  destruct ev; cbn [handle enabled] in Hen |- *.
  - (* ClickCamera *)
    specialize (Hseq eq_refl). unfold render in Hen. simpl in Hen.
    apply andb_true_iff in Hen as [_ Hc%negb_true_iff].
    handler_unfold. cam_fields; auto; lia.
  - (* CameraGranted *)
    apply andb_true_iff in Hen as [Hpos%Nat.ltb_lt _].
    assert (Hp1 : pendingCamera w = 1) by lia.
    pose proof (Hin (Hpi Hp1)) as Hnone.
    handler_unfold. cam_fields; try (intros; lia || discriminate).
    intros i Hi. destruct (decide (i < length (streams w))) as [Hlt|Hge].
    + rewrite lookup_app_l in Hi by exact Hlt.
      specialize (Hop i Hi). congruence.
    + destruct (decide (i = length (streams w))) as [->|Hne]; [reflexivity|].
      rewrite lookup_ge_None_2 in Hi; [discriminate|].
      rewrite length_app. simpl. lia.
  - (* CameraDenied *)
    handler_unfold. cam_fields; auto; lia.
  - (* ClickCapture *)
    apply andb_true_iff in Hen as [Hcam _]. simpl in Hcam.
    handler_unfold. simpl. rewrite Hcam.
    destruct (streamRef w) as [i|] eqn:Href; cam_fields; auto.
    + intros j Hj. exfalso.
      destruct (decide (j = i)) as [->|Hne].
      * rewrite list_lookup_alter_eq in Hj.
        destruct (streams w !! i); simpl in Hj; [|discriminate].
        now rewrite stop_tracks_closed in Hj.
      * rewrite list_lookup_alter_ne in Hj by congruence.
        specialize (Hop j Hj). congruence.
    + intros j Hj. rewrite Href. auto.
  - (* ClickUpload *)
    handler_unfold. cam_fields; assumption.
  - (* FileInputChange *)
    handler_unfold. destruct picked as [f|]; simpl; [|cam_fields; assumption].
    destruct (startsWith "image/" (file_type f)); cam_fields; assumption.
  - (* ReaderLoaded *)
    handler_unfold. cam_fields; assumption.
  - (* ReaderFailed *)
    handler_unfold. cam_fields; assumption.
  - (* ClickAnalyze *)
    handler_unfold. simpl.
    destruct (image w) as [s|]; simpl; [|cam_fields; assumption].
    destruct (String.eqb s ""); cam_fields; assumption.
  - (* FetchSettled *)
    unfold bind, modify. rewrite analyzeLips_resume_eq. simpl.
    destruct (analysis_result o); cam_fields; assumption.
  - (* ClickRetake *)
    handler_unfold. cam_fields; assumption.
  - (* ClickTryAgain *)
    handler_unfold. cam_fields; assumption.
Qed.

Lemma camera_inv_reach w : reach_one_request w -> camera_inv w.
Proof.
  induction 1 as [|w ev w' _ IH Hstep Hseq].
  - constructor; unfold open_at; simpl; auto; try discriminate.
  - eapply camera_inv_step; eassumption.
Qed.

(** ** The claims *)

(** C1, as amended.  Pressing "Try Again" while the results are on screen
    sets [results] to [null] and changes nothing else: the image is kept.
    What comes on screen is therefore the preview panel (the image with
    "Analyze Now" and "Retake"), and not the start panel.  The image is
    discarded only by "Retake": that press sets it to [null], and no
    other event takes an image away. *)
Theorem tryAgain_clears_results_only :
  (forall w,
     reachable w ->
     result_panel (render w) = true ->
     exists w',
       step w ClickTryAgain = Some w' /\
       w' = with_results VNull w /\
       results w' = VNull /\
       image w' = image w /\
       image_present w' = true /\
       preview_panel (render w') = true /\
       idle_panel (render w') = false /\
       result_panel (render w') = false) /\
  (forall w ev w',
     step w ev = Some w' ->
     image w <> None -> image w' = None -> ev = ClickRetake) /\
  (forall w w', step w ClickRetake = Some w' -> image w' = None).
Proof.
  split; [|split].
  - intros w Hreach%reachable_reach Hres.
    destruct (analysis_inv_reach _ Hreach) as [_ _ Hri Hrd].
    unfold render in Hres. simpl in Hres.
    specialize (Hri Hres). specialize (Hrd Hres).
    exists (with_results VNull w). unfold step.
    cbn [enabled render result_panel].
    rewrite Hres. handler_unfold. unfold render, image_present in *. simpl.
    rewrite Hri, Hrd. repeat split; reflexivity.
  - intros w ev w' [_ ->]%step_inv Himg.
    assert (Hkept : forall w1 (e1 : event),
              image w1 = image w -> image w1 = None -> e1 = ClickRetake).
    { intros w1 e1 Heq Hnone. exfalso. apply Himg. congruence. }
    destruct ev; cbn [handle].
    all: try (handler_unfold; simpl; solve [apply Hkept; reflexivity]).
    + handler_unfold. simpl.
      destruct (isCameraActive w); simpl; [|apply Hkept; reflexivity].
      destruct (streamRef w); simpl; intros H; discriminate H.
    + handler_unfold.
      destruct picked as [f|]; simpl; [|apply Hkept; reflexivity].
      destruct (startsWith "image/" (file_type f)); simpl;
        apply Hkept; reflexivity.
    + intros H; discriminate H.
    + handler_unfold. simpl.
      destruct (image w) as [s|] eqn:E; simpl; [|apply Hkept; simpl; congruence].
      destruct (String.eqb s ""); simpl; apply Hkept; simpl; congruence.
    + unfold bind, modify. rewrite analyzeLips_resume_eq. simpl.
      destruct (analysis_result o); simpl; apply Hkept; reflexivity.
    + intros _. reflexivity.
  - intros w w' [_ ->]%step_inv. reflexivity.
Qed.

(** C2, as amended.  [analyzeLips] has one guard, the absent image; what
    keeps a second analysis from starting is that the "Analyze Now" button
    is rendered only while [isAnalyzing] is false.  So: while an analysis
    is outstanding the button cannot be pressed; along every run at most
    one request is outstanding, and one is exactly while [isAnalyzing] is
    true; and a press that is accepted finds no request outstanding and
    issues exactly one.  The function itself sends a request whenever
    there is an image. *)
Theorem analyze_one_outstanding_request :
  (forall w, isAnalyzing w = true -> step w ClickAnalyze = None) /\
  (forall w, image_present w = false -> analyzeLips w = Ok tt w) /\
  (forall w, reachable w ->
     pendingFetch w <= 1 /\ (pendingFetch w = 1 <-> isAnalyzing w = true)) /\
  (forall w w', reachable w -> step w ClickAnalyze = Some w' ->
     pendingFetch w = 0 /\ pendingFetch w' = 1 /\ isAnalyzing w' = true /\
     exists r, requests w' = r :: requests w) /\
  (forall w, image_present w = true ->
     exists r, requests (world_of (analyzeLips w)) = r :: requests w).
Proof.
  split; [|split; [|split; [|split]]].
  - intros w Han. unfold step. cbn [enabled render preview_panel].
    now rewrite Han, andb_false_r.
  - intros w Himg. unfold image_present in Himg. handler_unfold.
    destruct (image w) as [s|]; [|reflexivity].
    apply negb_false_iff in Himg. now rewrite Himg.
  - intros w Hreach%reachable_reach.
    destruct (analysis_inv_reach _ Hreach) as [Hp _ _ _].
    rewrite Hp. destruct (isAnalyzing w); split; try lia; split; congruence.
  - intros w w' Hreach%reachable_reach [Hen ->]%step_inv.
    destruct (analysis_inv_reach _ Hreach) as [Hp _ _ _].
    cbn [enabled render preview_panel] in Hen.
    apply andb_true_iff in Hen as [[Hi _]%andb_true_iff Ha%negb_true_iff].
    rewrite Ha in Hp. unfold image_present in Hi. cbn [handle].
    handler_unfold. destruct (image w) as [s|]; [|discriminate].
    apply negb_true_iff in Hi. rewrite Hi. simpl. rewrite Hp.
    repeat split. now eexists.
  - intros w Hi. unfold image_present in Hi. handler_unfold.
    destruct (image w) as [s|]; [|discriminate].
    apply negb_true_iff in Hi. rewrite Hi. simpl. now eexists.
Qed.

(** C3.  A file whose declared media type does not begin with [image/]:
    the handler sets the invalid-input message and does nothing else.  No
    read is started, so no image payload will come; the image is what it
    was; and if the start panel was on screen it still is. *)
Theorem handleImageUpload_rejects_non_image w f :
  startsWith "image/" (file_type f) = false ->
  handleImageUpload (Some f) w = Ok tt (with_error invalid_input_message w) /\
  (let w' := world_of (handleImageUpload (Some f) w) in
   error w' = invalid_input_message /\
   image w' = image w /\
   pendingReads w' = pendingReads w /\
   results w' = results w /\
   isAnalyzing w' = isAnalyzing w /\
   isCameraActive w' = isCameraActive w /\
   error_banner (render w') = true /\
   (idle_panel (render w) = true -> idle_panel (render w') = true)).
Proof.
  intros Hty. unfold handleImageUpload. rewrite Hty. simpl.
  split; [reflexivity|]. repeat split. auto.
Qed.

(** C5, as amended.  Capturing a photo stops every track of the stream the
    stream handle refers to and clears the handle, in the step that stores
    the new image and leaves the camera view.  Along runs in which the
    Camera button is not pressed again while an earlier camera request is
    still pending, at most one session is open at any time, and it is the
    one the handle refers to. *)
Theorem capturePhoto_releases_session :
  (forall w frame,
     camera_panel (render w) = true -> is_data_url frame = true ->
     exists w',
       step w (ClickCapture frame) = Some w' /\
       image w' = Some frame /\
       isCameraActive w' = false /\
       streamRef w' = None /\
       forall i s, streamRef w = Some i -> streams w !! i = Some s ->
         streams w' !! i = Some (stop_tracks s) /\
         Forall (fun t => t = ended) (stop_tracks s) /\
         open_at w' i = false) /\
  (forall w, reach_one_request w ->
     forall i j, open_at w i = true -> open_at w j = true ->
       i = j /\ streamRef w = Some i).
Proof.
  split.
  - intros w frame Hcam Hd. eexists. split.
    { unfold step. cbn [enabled]. rewrite Hcam, Hd. reflexivity. }
    simpl in Hcam. cbn [handle]. handler_unfold. simpl. rewrite Hcam.
    destruct (streamRef w) as [k|] eqn:Href; simpl.
    + do 3 (split; [reflexivity|]).
      intros i s [= ->] Hs. unfold open_at; simpl.
      rewrite list_lookup_alter_eq, Hs. simpl.
      split; [reflexivity|].
      split; [apply stop_tracks_all_ended | apply stop_tracks_closed].
    + do 2 (split; [reflexivity|]). split; [exact Href | discriminate].
  - intros w Hreach i j Hi Hj.
    destruct (camera_inv_reach _ Hreach) as [_ _ _ Hop].
    pose proof (Hop i Hi) as Hri. pose proof (Hop j Hj) as Hrj.
    split; congruence.
Qed.

(** C7.  Whatever the failure of an analysis (the request rejected, a
    body that is not JSON, an envelope without the expected path, a text
    that does not parse), settling it is caught: the one generic message
    is set, the analyzing flag is cleared, the image and the results are
    what they were, and no request is issued. *)
Theorem analysis_failure_sets_generic_error w o :
  analysis_failure o ->
  0 < pendingFetch w ->
  exists w',
    handle (FetchSettled o) w = Ok tt w' /\
    step w (FetchSettled o) = Some w' /\
    error w' = analysis_failed_message /\
    isAnalyzing w' = false /\
    image w' = image w /\
    results w' = results w /\
    requests w' = requests w /\
    pendingFetch w' = pred (pendingFetch w) /\
    error_banner (render w') = true /\
    spinner (render w') = false.
Proof.
  intros [e He]%analysis_failure_iff Hpos.
  eexists. split.
  { cbn [handle]. unfold bind, modify. rewrite analyzeLips_resume_eq, He.
    reflexivity. }
  split.
  { unfold step. cbn [enabled handle]. apply Nat.ltb_lt in Hpos.
    rewrite Hpos. unfold bind, modify.
    now rewrite analyzeLips_resume_eq, He. }
  repeat split.
Qed.

(** C8.  The key resolver returns the empty string when reading the
    environment throws, when there is no environment, and when the
    variable is missing; otherwise it returns the variable.  Without a key
    the analysis still starts and the request goes out with an empty key;
    neither half of [analyzeLips] ever throws; and when the request is
    rejected or answered without candidates, the generic message is set. *)
Theorem missing_api_key_does_not_crash :
  (getApiKey EnvThrows = "" /\ getApiKey EnvUndefined = "" /\
   (forall vars, vars !! "VITE_GEMINI_API_KEY" = None ->
      getApiKey (Env vars) = "") /\
   (forall vars key, vars !! "VITE_GEMINI_API_KEY" = Some key ->
      getApiKey (Env vars) = key)) /\
  (forall w o, completes (analyzeLips w) /\ completes (analyzeLips_resume o w)) /\
  (apiKey = "" ->
   (forall w, image_present w = true ->
      exists r, requests (world_of (analyzeLips w)) = r :: requests w /\
                req_url r = endpoint) /\
   (forall w o,
      o = FetchRejected \/
      (exists props, o = BodyJson (VObj props) /\ assoc "candidates" props = None) ->
      exists w', analyzeLips_resume o w = Ok tt w' /\
                 error w' = analysis_failed_message /\
                 isAnalyzing w' = false)).
Proof.
  split; [|split].
  - repeat split.
    + intros vars H. simpl. now rewrite H.
    + intros vars key H. simpl. rewrite H.
      destruct (String.eqb_spec key ""); congruence.
  - intros w o. split.
    + handler_unfold. destruct (image w) as [s|]; simpl; [|exact I].
      destruct (String.eqb s ""); exact I.
    + rewrite analyzeLips_resume_eq. exact I.
  - intros Hkey. split.
    + intros w Hi. unfold image_present in Hi. handler_unfold.
      destruct (image w) as [s|]; [|discriminate].
      apply negb_true_iff in Hi. rewrite Hi. simpl. eexists. split; [reflexivity|].
      cbn [req_url]. rewrite Hkey. reflexivity.
    + intros w o Ho. rewrite analyzeLips_resume_eq. eexists. split; [reflexivity|].
      assert (exists e, analysis_result o = Raise e) as [e ->]; [|split; reflexivity].
      destruct Ho as [->|(props & -> & Hc)]; [now eexists|].
      unfold analysis_result, response_text. simpl. rewrite Hc. simpl. now eexists.
Qed.

(** C9.  The colour class follows the status by substring match with
    letter case ignored (the status is lower-cased first): a status with
    "well" in it is healthy, one with "mild" and no "well" is caution, any
    other is alert.  A response that parses to a result with score 82 and
    status "Well Hydrated" puts the result panel on screen, with the text
    "82%" under the healthy class. *)
Theorem getStatusColor_by_substring :
  (forall status type,
     (contains_ci "well" status ->
        getStatusColor (VStr status) type = Val (class_name healthy type)) /\
     (contains_ci "mild" status -> ~ contains_ci "well" status ->
        getStatusColor (VStr status) type = Val (class_name caution type)) /\
     (~ contains_ci "well" status -> ~ contains_ci "mild" status ->
        getStatusColor (VStr status) type = Val (class_name alert type))) /\
  (forall w o props moisture dryness,
     0 < pendingFetch w ->
     analysis_result o = Val (VObj props) ->
     assoc "overallStatus" props = Some (VStr "Well Hydrated") ->
     assoc "dehydrationScore" props = Some (VNum 82) ->
     assoc "moisture" props = Some (VStr moisture) ->
     assoc "dryness" props = Some (VStr dryness) ->
     exists w',
       step w (FetchSettled o) = Some w' /\
       results w' = VObj props /\
       result_panel (render w') = true /\
       render_results (results w') =
         Val {| header_class := class_name healthy "bg";
                score_text := "82%";
                status_text := "Well Hydrated";
                moisture_text := moisture;
                texture_text := dryness |}).
Proof.
  split.
  - intros status type. unfold getStatusColor. cbn [status_lower thrown_bind].
    repeat split.
    + intros H%includes_toLowerCase. now rewrite H.
    + intros Hm%includes_toLowerCase Hw.
      destruct (includes "well" (toLowerCase status)) eqn:E.
      * apply includes_toLowerCase in E. contradiction.
      * now rewrite Hm.
    + intros Hw Hm.
      destruct (includes "well" (toLowerCase status)) eqn:E.
      { apply includes_toLowerCase in E. contradiction. }
      destruct (includes "mild" (toLowerCase status)) eqn:E'.
      { apply includes_toLowerCase in E'. contradiction. }
      reflexivity.
  - intros w o props moisture dryness Hpos Hres Hs Hn Hm Hd.
    eexists. split.
    { unfold step. cbn [enabled handle]. apply Nat.ltb_lt in Hpos.
      rewrite Hpos. unfold bind, modify.
      now rewrite analyzeLips_resume_eq, Hres. }
    cbn [world_of with_isAnalyzing with_results results].
    split; [reflexivity|]. split; [reflexivity|].
    unfold render_results, get_prop.
    rewrite Hs, Hn, Hm, Hd. reflexivity.
Qed.

(** ** Further properties of the component *)

(** What one event does to the camera: a grant appends the new stream and
    points the handle at it, a capture stops the handle's stream and
    clears the handle, and every other event leaves streams, handle and
    camera flag alone. *)
Lemma step_camera_cases w ev w' :
  step w ev = Some w' ->
  (exists s, ev = CameraGranted s /\ fresh_stream s = true /\
     streams w' = (streams w ++ [s])%list /\
     streamRef w' = Some (length (streams w)) /\
     isCameraActive w' = true) \/
  (exists frame, ev = ClickCapture frame /\
     isCameraActive w = true /\ isCameraActive w' = false /\
     streamRef w' = None /\
     streams w' = match streamRef w with
                  | Some i => alter stop_tracks i (streams w)
                  | None => streams w
                  end) \/
  (streams w' = streams w /\ streamRef w' = streamRef w /\
   isCameraActive w' = isCameraActive w).
Proof.
  intros [Hen ->]%step_inv.
  destruct ev; cbn [handle enabled] in Hen |- *.
  - right; right. handler_unfold. repeat split.
  - left. apply andb_true_iff in Hen as [_ Hs]. exists s.
    handler_unfold. repeat split. exact Hs.
  - right; right. handler_unfold. repeat split.
  - right; left. apply andb_true_iff in Hen as [Hcam _]. simpl in Hcam.
    exists frame. handler_unfold. simpl. rewrite Hcam.
    destruct (streamRef w) eqn:E; repeat split; simpl; auto.
  - right; right. handler_unfold. repeat split.
  - right; right. handler_unfold. destruct picked as [f|]; simpl;
      [|repeat split].
    destruct (startsWith "image/" (file_type f)); repeat split.
  - right; right. handler_unfold. repeat split.
  - right; right. handler_unfold. repeat split.
  - right; right. handler_unfold. simpl.
    destruct (image w) as [s|]; simpl; [|repeat split].
    destruct (String.eqb s ""); repeat split.
  - right; right. unfold bind, modify. rewrite analyzeLips_resume_eq. simpl.
    destruct (analysis_result o); repeat split.
  - right; right. handler_unfold. repeat split.
  - right; right. handler_unfold. repeat split.
Qed.

Lemma fresh_stream_open s : fresh_stream s = true -> session_open s = true.
Proof.
  destruct s as [|t s]; [discriminate|]. simpl.
  intros [Ht _]%andb_true_iff. now rewrite Ht.
Qed.

Lemma open_at_lt w i : open_at w i = true -> i < length (streams w).
Proof.
  unfold open_at. destruct (streams w !! i) eqn:E; [|discriminate].
  intros _. eapply lookup_lt_Some. exact E.
Qed.

(** X1.  Along every run, the camera panel is on screen exactly when the
    stream handle is set, and the stream the handle refers to exists and
    is open. *)
Theorem streamRef_live_while_camera_on w :
  reachable w ->
  (isCameraActive w = true <-> exists i, streamRef w = Some i) /\
  (forall i, streamRef w = Some i -> open_at w i = true).
Proof.
  intros Hreach%reachable_reach.
  induction Hreach as [|w ev w' _ [IHa IHo] Hstep].
  - split; [split; [discriminate | intros [i H]; discriminate] | discriminate].
  - destruct (step_camera_cases _ _ _ Hstep)
      as [(s & _ & Hs & Hstr & Href & Hact)
         |[(frame & _ & _ & Hact & Href & _)|(Hstr & Href & Hact)]].
    + rewrite Href, Hact. split; [split; eauto|].
      intros i [= <-]. unfold open_at. rewrite Hstr.
      rewrite lookup_app_r by lia. rewrite Nat.sub_diag. simpl.
      now apply fresh_stream_open.
    + rewrite Href, Hact.
      split; [split; [discriminate | intros [i H]; discriminate] | discriminate].
    + unfold open_at in *. rewrite Href, Hact, Hstr. split; assumption.
Qed.

(** X2.  A stream that is open and is not the one in the stream handle is
    never stopped: whatever events follow, it stays open and the handle
    never comes to refer to it. *)
Theorem unreferenced_stream_stays_open w evs w' i :
  run w evs = Some w' ->
  open_at w i = true ->
  streamRef w <> Some i ->
  open_at w' i = true /\ streamRef w' <> Some i.
Proof.
  revert w. induction evs as [|ev evs IH]; intros w Hrun Hopen Href.
  - simpl in Hrun. injection Hrun as <-. now split.
  - simpl in Hrun. destruct (step w ev) as [w1|] eqn:Hstep; [|discriminate].
    apply (IH w1 Hrun); clear IH Hrun.
    + destruct (step_camera_cases _ _ _ Hstep)
        as [(s & _ & _ & Hstr & _ & _)
           |[(frame & _ & _ & _ & _ & Hstr)|(Hstr & _ & _)]];
        unfold open_at in *; rewrite Hstr.
      * rewrite lookup_app_l; [exact Hopen|].
        destruct (streams w !! i) eqn:E; [|discriminate].
        eapply lookup_lt_Some. exact E.
      * destruct (streamRef w) as [k|]; [|exact Hopen].
        rewrite list_lookup_alter_ne; [exact Hopen | congruence].
      * exact Hopen.
    + destruct (step_camera_cases _ _ _ Hstep)
        as [(s & _ & _ & _ & Hr & _)
           |[(frame & _ & _ & _ & Hr & _)|(_ & Hr & _)]]; rewrite Hr.
      * intros [= <-]. apply open_at_lt in Hopen. lia.
      * discriminate.
      * exact Href.
Qed.

(** X3.  Only a press of "Analyze Now" sends anything: every other event
    leaves the request log as it is, so neither an upload, a capture nor a
    failed analysis transmits the image.  The request that a press sends
    goes to the endpoint with the key, carries the second comma-piece of
    the image on screen, and declares it [image/jpeg] whatever the type
    of the uploaded file was; this holds of every request of every run. *)
Theorem requests_only_from_analyze :
  (forall w ev w',
     step w ev = Some w' -> ev <> ClickAnalyze -> requests w' = requests w) /\
  (forall w w',
     step w ClickAnalyze = Some w' ->
     exists s, image w = Some s /\
       requests w' =
         {| req_url := endpoint +:+ apiKey;
            req_mimeType := "image/jpeg";
            req_data := base64Data s |} :: requests w) /\
  (forall w, reachable w ->
     forall r, In r (requests w) ->
       req_url r = endpoint +:+ apiKey /\ req_mimeType r = "image/jpeg").
Proof.
  assert (Hother : forall w ev w',
            step w ev = Some w' -> ev <> ClickAnalyze ->
            requests w' = requests w).
  { intros w ev w' [Hen ->]%step_inv Hne.
    destruct ev; cbn [handle]; try congruence.
    all: try (handler_unfold; reflexivity).
    - handler_unfold. simpl. destruct (isCameraActive w); [|reflexivity].
      destruct (streamRef w); reflexivity.
    - handler_unfold. destruct picked as [f|]; [|reflexivity]. simpl.
      destruct (startsWith "image/" (file_type f)); reflexivity.
    - unfold bind, modify. rewrite analyzeLips_resume_eq. simpl.
      destruct (analysis_result o); reflexivity. }
  assert (Hpress : forall w w',
            step w ClickAnalyze = Some w' ->
            exists s, image w = Some s /\
              requests w' =
                {| req_url := endpoint +:+ apiKey;
                   req_mimeType := "image/jpeg";
                   req_data := base64Data s |} :: requests w).
  { intros w w' [Hen ->]%step_inv.
    cbn [enabled render preview_panel] in Hen.
    apply andb_true_iff in Hen as [[Hi _]%andb_true_iff _].
    unfold image_present in Hi. cbn [handle]. handler_unfold.
    destruct (image w) as [s|]; [|discriminate].
    apply negb_true_iff in Hi. rewrite Hi. exists s. split; reflexivity. }
  split; [exact Hother|]. split; [exact Hpress|].
  intros w Hreach%reachable_reach.
  induction Hreach as [|w ev w' _ IH Hstep]; [intros r []|].
  destruct ev; try (rewrite (Hother _ _ _ Hstep); [exact IH | discriminate]).
  destruct (Hpress _ _ Hstep) as (s & _ & ->).
  intros r [<-|Hin]; [split; reflexivity | now apply IH].
Qed.

(** X4.  The message on screen is always one of four: none, the invalid
    file message, the camera message, or the analysis message. *)
Theorem error_is_a_known_message w :
  reachable w -> known_error (error w).
Proof.
  intros Hreach%reachable_reach.
  induction Hreach as [|w ev w' _ IH Hstep]; [now left|].
  apply step_inv in Hstep as [_ ->].
  destruct ev; cbn [handle].
  all: try (handler_unfold; simpl; solve [exact IH | now left]).
  - right; right; left. reflexivity.
  - handler_unfold. simpl. destruct (isCameraActive w); [|exact IH].
    destruct (streamRef w); exact IH.
  - handler_unfold. destruct picked as [f|]; [|exact IH]. simpl.
    destruct (startsWith "image/" (file_type f)); [exact IH|].
    right; left. reflexivity.
  - handler_unfold. simpl. destruct (image w) as [s|]; [|exact IH].
    destruct (String.eqb s ""); [exact IH | now left].
  - unfold bind, modify. rewrite analyzeLips_resume_eq. simpl.
    destruct (analysis_result o); [exact IH|].
    right; right; right. reflexivity.
Qed.

Lemma blank_iff (r : value) (v : view) :
  (if truthy r then
     match render_results r with
     | Val _ => Some v
     | Raise _ => None
     end
   else Some v) = None <->
  truthy r = true /\ exists e, render_results r = Raise e.
Proof.
  destruct (truthy r).
  - destruct (render_results r) as [x|e].
    + split; [discriminate | intros [_ [e He]]; discriminate He].
    + split; [intros _; split; [reflexivity | now exists e] | reflexivity].
  - split; [discriminate | intros [H _]; discriminate H].
Qed.

Lemma screen_is_render w v : screen w = Some v -> v = render w.
Proof.
  unfold screen. destruct (truthy (results w)); [|congruence].
  destruct (render_results (results w)); [congruence | discriminate].
Qed.

Lemma reach_rendered_reach w : reach_rendered w -> reach w.
Proof.
  induction 1 as [|w ev w' v _ IH Hstep _].
  - apply reach_initial.
  - eapply reach_step; eassumption.
Qed.

Lemma run_rendered_reach w evs w' :
  reach_rendered w -> run_rendered w evs = Some w' -> reach_rendered w'.
Proof.
  revert w. induction evs as [|ev evs IH]; intros w Hw; simpl.
  - now intros [= <-].
  - destruct (step w ev) as [w1|] eqn:Hstep; [|discriminate].
    destruct (screen w1) as [v|] eqn:Hscreen; [|discriminate].
    apply IH. eapply rendered_step; eassumption.
Qed.

(** X5.  Nothing is displayed exactly when the results are truthy and
    building the result panel throws.  Whenever a state is displayed, at
    least one panel is in it; and along runs in which no render has
    thrown, the start panel, the preview, the spinner and the result
    panel exclude one another: exactly one of the four is displayed,
    except that none is while the camera is on with no image. *)
Theorem one_main_panel :
  (forall w,
     screen w = None <->
     truthy (results w) = true /\
     exists e, render_results (results w) = Raise e) /\
  (forall w v,
     screen w = Some v ->
     idle_panel v || camera_panel v || preview_panel v || spinner v
       || result_panel v = true) /\
  (forall w v,
     reach_rendered w ->
     screen w = Some v ->
     length (filter (fun b => b = true)
               [idle_panel v; preview_panel v; spinner v; result_panel v])
     = if camera_panel v && negb (image_present w) then 0 else 1).
Proof.
  split; [|split].
  - intros w. apply blank_iff.
  - intros w v ->%screen_is_render. simpl.
    destruct (image_present w), (isCameraActive w), (truthy (results w)),
      (isAnalyzing w); reflexivity.
  - intros w v Hreach%reach_rendered_reach ->%screen_is_render.
    destruct (analysis_inv_reach _ Hreach) as [_ Hai Hri Hrd]. simpl.
    destruct (image_present w), (isCameraActive w), (truthy (results w)),
      (isAnalyzing w); try reflexivity;
      try (specialize (Hai eq_refl)); try (specialize (Hri eq_refl));
      try (specialize (Hrd eq_refl)); discriminate.
Qed.

(** X6.  From the result panel the way back to the start is "Try Again"
    followed by "Retake": both presses are accepted, the image and the
    result are then gone, the message is untouched, and the start panel
    is on screen unless the camera is on. *)
Theorem tryAgain_then_retake_discards_image w :
  reachable w ->
  result_panel (render w) = true ->
  exists w',
    run w [ClickTryAgain; ClickRetake] = Some w' /\
    w' = with_image None (with_results VNull w) /\
    idle_panel (render w') = negb (isCameraActive w).
Proof.
  intros Hreach%reachable_reach Hres.
  destruct (analysis_inv_reach _ Hreach) as [_ _ Hri Hrd].
  simpl in Hres. specialize (Hri Hres). specialize (Hrd Hres).
  eexists. split; [|split; [reflexivity|]].
  - simpl. unfold step at 1. cbn [enabled render result_panel].
    rewrite Hres. cbn [handle]. unfold step. cbn [enabled render preview_panel].
    handler_unfold. unfold image_present in *. simpl.
    rewrite Hri, Hrd. reflexivity.
  - reflexivity.
Qed.

(** X7.  When the analysis succeeds the parsed value is stored as it is,
    the analyzing flag is cleared and the message is left alone.  What is
    then displayed depends on the value: nothing at all when it is truthy
    and the result panel throws on it; otherwise the result panel exactly
    when it is truthy.  A response that parses to [null], [0], the empty
    string or [false] therefore shows neither a result nor an error: the
    preview comes back. *)
Theorem analysis_success_stores_parsed_value w o parsed :
  0 < pendingFetch w ->
  analysis_result o = Val parsed ->
  exists w',
    step w (FetchSettled o) = Some w' /\
    results w' = parsed /\
    isAnalyzing w' = false /\
    error w' = error w /\
    image w' = image w /\
    (screen w' = None <->
       truthy parsed = true /\ exists e, render_results parsed = Raise e) /\
    (forall v, screen w' = Some v -> result_panel v = truthy parsed) /\
    (reachable w -> truthy parsed = false ->
       exists v, screen w' = Some v /\ preview_panel v = true).
Proof.
  intros Hpos Hres. eexists. split.
  { unfold step. cbn [enabled handle]. apply Nat.ltb_lt in Hpos as Hb.
    rewrite Hb. unfold bind, modify.
    now rewrite analyzeLips_resume_eq, Hres. }
  cbn [world_of].
  set (w' := with_isAnalyzing false
               (with_results parsed
                  (with_pendingFetch (pred (pendingFetch w)) w))).
  do 4 (split; [reflexivity|]).
  assert (Hscreen : screen w' =
            if truthy parsed then
              match render_results parsed with
              | Val _ => Some (render w')
              | Raise _ => None
              end
            else Some (render w')) by reflexivity.
  split; [|split].
  - rewrite Hscreen. apply blank_iff.
  - intros v ->%screen_is_render. reflexivity.
  - intros Hreach%reachable_reach Hfalsy.
    destruct (analysis_inv_reach _ Hreach) as [Hp Hai _ _].
    exists (render w'). rewrite Hscreen, Hfalsy. split; [reflexivity|].
    unfold image_present in *. cbn. unfold image_present. cbn.
    rewrite Hfalsy.
    destruct (isAnalyzing w); [|lia]. now rewrite (Hai eq_refl).
Qed.

(** X8.  A successful upload: once the picker hands over a file whose type
    begins with [image/] and the reader has loaded it, the image is the
    data URL read, any earlier result and message are cleared, nothing
    has been sent, and the preview is on screen unless an analysis is
    still running. *)
Theorem upload_then_load_shows_preview w f result :
  dialogOpen w = true ->
  startsWith "image/" (file_type f) = true ->
  is_data_url result = true ->
  exists w',
    run w [FileInputChange (Some f); ReaderLoaded result] = Some w' /\
    image w' = Some result /\
    results w' = VNull /\
    error w' = "" /\
    requests w' = requests w /\
    pendingReads w' = pendingReads w /\
    result_panel (render w') = false /\
    idle_panel (render w') = false /\
    preview_panel (render w') = negb (isAnalyzing w).
Proof.
  intros Hdlg Hty Hurl. eexists. split.
  { simpl. unfold step at 1. cbn [enabled handle]. rewrite Hdlg.
    handler_unfold. rewrite Hty. simpl.
    unfold step. cbn [enabled handle]. simpl. rewrite Hurl.
    handler_unfold. reflexivity. }
  unfold render, image_present. simpl.
  rewrite (data_url_nonempty _ Hurl). repeat split.
Qed.

(** X9.  A read that fails is silent: the reader has no error handler, so
    after the file was accepted and the read failed the world is what it
    was when the picker was closed, with no image and no message. *)
Theorem failed_read_is_silent w f :
  dialogOpen w = true ->
  startsWith "image/" (file_type f) = true ->
  run w [FileInputChange (Some f); ReaderFailed] = Some (with_dialogOpen false w).
Proof.
  intros Hdlg Hty. simpl. unfold step at 1. cbn [enabled handle].
  rewrite Hdlg. handler_unfold. rewrite Hty. simpl.
  unfold step. cbn [enabled handle]. simpl. handler_unfold.
  destruct w; reflexivity.
Qed.

(** X10.  The two ends of [startCamera], from the start panel.  Denied:
    the camera message is shown, the start panel stays, and no stream,
    handle or image has changed.  Granted: the earlier message is gone,
    the handle refers to the new stream, which is open, and the camera
    panel has replaced the start panel. *)
Theorem startCamera_denied_or_granted w :
  idle_panel (render w) = true ->
  (exists w',
     run w [ClickCamera; CameraDenied] = Some w' /\
     error w' = camera_denied_message /\
     idle_panel (render w') = true /\
     camera_panel (render w') = false /\
     streams w' = streams w /\
     streamRef w' = streamRef w /\
     image w' = image w /\
     pendingCamera w' = pendingCamera w) /\
  (forall s, fresh_stream s = true ->
     exists w',
       run w [ClickCamera; CameraGranted s] = Some w' /\
       error w' = "" /\
       streamRef w' = Some (length (streams w)) /\
       open_at w' (length (streams w)) = true /\
       camera_panel (render w') = true /\
       idle_panel (render w') = false /\
       pendingCamera w' = pendingCamera w).
Proof.
  intros Hidle. split.
  - eexists. split.
    { simpl. unfold step at 1. cbn [enabled handle]. rewrite Hidle.
      handler_unfold. unfold step. cbn [enabled handle]. simpl.
      handler_unfold. reflexivity. }
    simpl in *. apply andb_true_iff in Hidle as Hboth.
    destruct Hboth as [_ Hcam%negb_true_iff].
    repeat split; [exact Hidle | exact Hcam].
  - intros s Hs. eexists. split.
    { simpl. unfold step at 1. cbn [enabled handle]. rewrite Hidle.
      handler_unfold. unfold step. cbn [enabled handle]. simpl. rewrite Hs.
      handler_unfold. reflexivity. }
    unfold open_at. simpl. rewrite lookup_app_r by lia.
    rewrite Nat.sub_diag. simpl. rewrite (fresh_stream_open _ Hs).
    rewrite andb_false_r. repeat split.
Qed.

Lemma step_page_inv p ev p' :
  step_page p ev = Some p' ->
  step (page_world p) ev = Some (page_world p') /\
  srcObject p' = commit (page_world p) (page_world p') (srcObject p).
Proof.
  unfold step_page. destruct (step (page_world p) ev); [|discriminate].
  intros [= <-]. split; reflexivity.
Qed.

Lemma reach_page_world p : reach_page p -> reach (page_world p).
Proof.
  induction 1 as [|p ev p' _ IH [Hstep _]%step_page_inv].
  - apply reach_initial.
  - eapply reach_step; eassumption.
Qed.

Lemma reach_page_one_request_world p :
  reach_page_one_request p -> reach_one_request (page_world p).
Proof.
  induction 1 as [|p ev p' _ IH [Hstep _]%step_page_inv Hseq].
  - apply one_request_initial.
  - eapply one_request_step; eassumption.
Qed.

(** X11.  What the video element plays.  Along every run, while the camera
    panel is on screen the element has a source, and that stream is open;
    while the panel is off there is no source. *)
Theorem video_plays_an_open_stream p :
  reach_page p ->
  (isCameraActive (page_world p) = false -> srcObject p = None) /\
  (isCameraActive (page_world p) = true ->
     exists i, srcObject p = Some i /\ open_at (page_world p) i = true).
Proof.
  induction 1 as [|p ev p' _ [IHoff IHon] [Hstep Hsrc]%step_page_inv].
  - split; [reflexivity | discriminate].
  - rewrite Hsrc. unfold commit, attach_stream, videoRef_current.
    destruct (step_camera_cases _ _ _ Hstep)
      as [(s & _ & Hs & Hstr & Href & Hact)
         |[(frame & _ & _ & Hact & _ & _)|(Hstr & _ & Hact)]];
      rewrite Hact.
    + split; [discriminate|]. intros _.
      destruct (isCameraActive (page_world p)) eqn:Hbefore; simpl.
      * destruct (IHon eq_refl) as (i & Hi & Hopen). exists i.
        split; [exact Hi|]. unfold open_at in *. rewrite Hstr.
        rewrite lookup_app_l; [exact Hopen|].
        destruct (streams (page_world p) !! i) eqn:E; [|discriminate].
        eapply lookup_lt_Some. exact E.
      * rewrite Href. eexists. split; [reflexivity|].
        unfold open_at. rewrite Hstr, lookup_app_r by lia.
        rewrite Nat.sub_diag. simpl. now apply fresh_stream_open.
    + split; [|discriminate]. intros _.
      destruct (isCameraActive (page_world p)); reflexivity.
    + rewrite Bool.eqb_reflx.
      destruct (isCameraActive (page_world p)); split;
        try discriminate; try reflexivity.
      intros _. destruct (IHon eq_refl) as (i & Hi & Hopen). exists i.
      split; [exact Hi|]. unfold open_at in *. now rewrite Hstr.
Qed.

(** X12.  Along runs with one camera request at a time, the stream the
    video element plays while the camera panel is on screen is the one
    the stream handle refers to, so the stream that is shown is the one a
    capture stops. *)
Theorem video_plays_the_held_stream p :
  reach_page_one_request p ->
  isCameraActive (page_world p) = true ->
  srcObject p = streamRef (page_world p).
Proof.
  induction 1 as [|p ev p' Hreach IH [Hstep Hsrc]%step_page_inv Hseq].
  - discriminate.
  - rewrite Hsrc. unfold commit, attach_stream, videoRef_current.
    apply reach_page_one_request_world in Hreach.
    destruct (camera_inv_reach _ Hreach) as [Hone Hpi _ _].
    destruct (step_camera_cases _ _ _ Hstep)
      as [(s & -> & _ & _ & Href & Hact)
         |[(frame & _ & _ & Hact & _ & _)|(_ & Href & Hact)]];
      rewrite Hact.
    + intros _. apply step_inv in Hstep as [Hen _]. cbn [enabled] in Hen.
      apply andb_true_iff in Hen as [Hpos%Nat.ltb_lt _].
      rewrite (Hpi ltac:(lia)). simpl. now rewrite Href.
    + discriminate.
    + intros Hon. rewrite Bool.eqb_reflx, Hon, Href. now apply IH.
Qed.

(** X13.  What is read from the response.  Only the first candidate and
    its first part are looked at, and the text may be absent.  A body
    that is [null], or has no candidates, a [null] or empty candidate
    list, a first candidate without content (as for a blocked answer), or
    an empty part list, throws a TypeError and so is an analysis failure. *)
Theorem response_text_reads_first_candidate :
  (forall props candidate candidates content part parts,
     assoc "candidates" props = Some (VArr (VObj candidate :: candidates)) ->
     assoc "content" candidate = Some (VObj content) ->
     assoc "parts" content = Some (VArr (VObj part :: parts)) ->
     response_text (VObj props) = Val (or_undefined (assoc "text" part))) /\
  (forall data,
     data = VNull \/
     (exists props, data = VObj props /\
        (assoc "candidates" props = None \/
         assoc "candidates" props = Some VNull \/
         assoc "candidates" props = Some (VArr []) \/
         (exists candidate candidates,
            assoc "candidates" props = Some (VArr (VObj candidate :: candidates)) /\
            (assoc "content" candidate = None \/
             exists content,
               assoc "content" candidate = Some (VObj content) /\
               assoc "parts" content = Some (VArr []))))) ->
     response_text data = Raise TypeError /\ analysis_failure (BodyJson data)).
Proof.
  split.
  - intros props candidate candidates content part parts Hc Hcontent Hparts.
    unfold response_text. simpl. rewrite Hc. simpl. rewrite Hcontent. simpl.
    rewrite Hparts. reflexivity.
  - intros data Hdata.
    assert (Hthrow : response_text data = Raise TypeError).
    { unfold response_text.
      destruct Hdata as
        [->|(props & -> & [Hc|[Hc|[Hc|(cand & cands & Hc & Hrest)]]])];
        simpl; rewrite ?Hc; try reflexivity.
      simpl. destruct Hrest as [Hcontent|(content & Hcontent & Hparts)];
        rewrite Hcontent; simpl; [reflexivity|].
      rewrite Hparts. reflexivity. }
    split; [exact Hthrow|]. eapply failure_envelope. exact Hthrow.
Qed.

(** X14.  [getStatusColor] returns a class exactly for a status that is
    absent or a string.  For any other status (a number, a boolean, a
    list, an object) it throws a TypeError, and with such an
    [overallStatus] in the results the result panel throws with it. *)
Theorem getStatusColor_needs_a_string status type :
  ((exists cls, getStatusColor status type = Val cls) <->
     absent_or_string status = true) /\
  (absent_or_string status = false ->
     getStatusColor status type = Raise TypeError /\
     forall props,
       assoc "overallStatus" props = Some status ->
       render_results (VObj props) = Raise TypeError).
Proof.
  split.
  - unfold getStatusColor.
    destruct status; simpl; split; try reflexivity; try discriminate.
    all: try (intros [cls H]; discriminate).
    all: intros _.
    all: repeat match goal with
           | |- context [if ?b then _ else _] => destruct b
           end; eexists; reflexivity.
  - intros Hns. split.
    + destruct status; try discriminate; reflexivity.
    + intros props Hst. unfold render_results. simpl. rewrite Hst. simpl.
      destruct status; try discriminate; reflexivity.
Qed.

Lemma of_Z_small z : (0 <= z <= 1000)%Z -> of_Z z = decimal z.
Proof.
  intros Hz.
  assert (Hall : forallb
            (fun n => String.eqb (of_Z (Z.of_nat n)) (decimal (Z.of_nat n)))
            (List.seq 0 1001) = true) by (vm_compute; reflexivity).
  rewrite forallb_forall in Hall.
  specialize (Hall (Z.to_nat z)). rewrite Z2Nat.id in Hall by lia.
  apply String.eqb_eq, Hall, in_seq. lia.
Qed.

(** X15.  A result with a string status, a numeric score and string
    moisture and dryness always renders: the score is shown as JavaScript
    prints the number, followed by a percent sign, with no check that it
    lies between 0 and 100, under the colour of the status.  Up to 1000
    the number prints as its plain decimal digits. *)
Theorem render_results_of_schema_result props status score moisture dryness :
  assoc "overallStatus" props = Some (VStr status) ->
  assoc "dehydrationScore" props = Some (VNum score) ->
  assoc "moisture" props = Some (VStr moisture) ->
  assoc "dryness" props = Some (VStr dryness) ->
  (exists cls,
     getStatusColor (VStr status) "bg" = Val cls /\
     render_results (VObj props) =
       Val {| header_class := cls;
              score_text := of_Z score +:+ "%";
              status_text := status;
              moisture_text := moisture;
              texture_text := dryness |}) /\
  ((0 <= score <= 1000)%Z -> of_Z score = decimal score).
Proof.
  intros Hs Hn Hm Hd. split; [|apply of_Z_small].
  unfold render_results, get_prop.
  rewrite Hs, Hn, Hm, Hd. cbn [or_undefined thrown_bind].
  assert (exists cls, getStatusColor (VStr status) "bg" = Val cls) as [cls Hcls].
  { unfold getStatusColor. simpl.
    repeat match goal with
           | |- context [if ?b then _ else _] => destruct b
           end; eexists; reflexivity. }
  exists cls. split; [exact Hcls|]. rewrite Hcls. reflexivity.
Qed.

(** X16.  A result that lacks the four fields shown (an empty object, or
    a truthy value that is no object at all) still renders: under the
    alert colour, with a bare percent sign and empty texts. *)
Theorem render_results_without_fields r :
  get_prop r "overallStatus" = Val VUndefined ->
  get_prop r "dehydrationScore" = Val VUndefined ->
  get_prop r "moisture" = Val VUndefined ->
  get_prop r "dryness" = Val VUndefined ->
  render_results r =
    Val {| header_class := "bg-rose-500";
           score_text := "%";
           status_text := "";
           moisture_text := "";
           texture_text := "" |}.
Proof.
  intros Hs Hn Hm Hd. unfold render_results.
  rewrite Hs, Hn, Hm, Hd. reflexivity.
Qed.

Lemma split_cases sep s :
  split sep s =
  before_first sep s ::
  match after_first sep s with
  | Some rest => split sep rest
  | None => []
  end.
Proof.
  induction s as [|c s IH]; simpl; [reflexivity|].
  destruct (Ascii.eqb c sep); [reflexivity|]. now rewrite IH.
Qed.

Lemma before_first_has_no_sep sep s : has_char sep (before_first sep s) = false.
Proof.
  induction s as [|c s IH]; simpl; [reflexivity|].
  destruct (Ascii.eqb c sep) eqn:E; simpl; [reflexivity|]. now rewrite E.
Qed.

Lemma cut_at_first sep s :
  s = before_first sep s +:+
      match after_first sep s with
      | Some rest => String sep rest
      | None => EmptyString
      end.
Proof.
  induction s as [|c s IH]; simpl; [reflexivity|].
  destruct (Ascii.eqb_spec c sep) as [->|Hne]; simpl; [reflexivity|].
  now rewrite <- IH.
Qed.

Lemma after_first_none_iff sep s :
  after_first sep s = None <-> has_char sep s = false.
Proof.
  induction s as [|c s IH]; simpl; [tauto|].
  destruct (Ascii.eqb c sep); simpl; [split; discriminate | exact IH].
Qed.

(** X17.  The payload sent is absent exactly when the image holds no
    comma.  When there is one, it holds no comma itself, and the image is
    some comma-free prefix, a comma, the payload, and then either nothing
    or a comma and more. *)
Theorem base64Data_characterised s :
  (base64Data s = None <-> has_char "," s = false) /\
  (forall payload,
     base64Data s = Some payload ->
     has_char "," payload = false /\
     exists pre tail,
       has_char "," pre = false /\
       s = pre +:+ "," +:+ payload +:+ tail /\
       (tail = "" \/ exists rest, tail = "," +:+ rest)).
Proof.
  unfold base64Data. rewrite split_cases. simpl.
  pose proof (cut_at_first "," s) as Hcut.
  pose proof (after_first_none_iff "," s) as Hnone.
  destruct (after_first "," s) as [rest|] eqn:Hafter.
  - rewrite split_cases. simpl. split.
    + split; [discriminate|]. intros H. apply Hnone in H. discriminate.
    + intros payload [= <-]. split; [apply before_first_has_no_sep|].
      exists (before_first "," s).
      exists (match after_first "," rest with
              | Some more => String "," more
              | None => EmptyString
              end).
      split; [apply before_first_has_no_sep|]. split.
      * rewrite Hcut at 1. simpl. f_equal.
        change (String "," rest) with ("," +:+ rest). f_equal.
        apply cut_at_first.
      * destruct (after_first "," rest) as [more|]; [right|left; reflexivity].
        now exists more.
  - simpl. split; [|discriminate].
    split; [intros _; now apply Hnone | reflexivity].
Qed.

Lemma step_ClickAnalyze_eq w s :
  preview_panel (render w) = true ->
  image w = Some s ->
  step w ClickAnalyze =
  Some (with_pendingFetch (S (pendingFetch w))
          (with_requests
             ({| req_url := endpoint +:+ apiKey;
                 req_mimeType := "image/jpeg";
                 req_data := base64Data s |} :: requests w)
             (with_error "" (with_isAnalyzing true w)))).
Proof.
  intros Hprev Himg. unfold step. cbn [enabled]. rewrite Hprev.
  cbn [render preview_panel] in Hprev.
  apply andb_true_iff in Hprev as [[Hi _]%andb_true_iff _].
  unfold image_present in Hi. rewrite Himg in Hi. apply negb_true_iff in Hi.
  cbn [handle]. unfold analyzeLips, bind, read. rewrite Himg, Hi.
  reflexivity.
Qed.

(** X18.  After a failed analysis the user can try again by hand: along
    every run the preview is back on screen with the message, and a new
    press of "Analyze Now" is accepted, clears the message and sends a
    request for the image that is then on screen. *)
Theorem failed_analysis_can_be_repeated w o :
  reachable w ->
  0 < pendingFetch w ->
  analysis_failure o ->
  exists w' w'' s,
    step w (FetchSettled o) = Some w' /\
    preview_panel (render w') = true /\
    error_banner (render w') = true /\
    image w' = Some s /\
    step w' ClickAnalyze = Some w'' /\
    error w'' = "" /\
    spinner (render w'') = true /\
    requests w'' =
      {| req_url := endpoint +:+ apiKey;
         req_mimeType := "image/jpeg";
         req_data := base64Data s |} :: requests w.
Proof.
  intros Hreach%reachable_reach Hpos [e He]%analysis_failure_iff.
  destruct (analysis_inv_reach _ Hreach) as [Hp Hai _ Hrd].
  assert (Han : isAnalyzing w = true).
  { destruct (isAnalyzing w); [reflexivity | lia]. }
  specialize (Hai Han).
  assert (Hres : truthy (results w) = false).
  { destruct (truthy (results w)); [|reflexivity].
    specialize (Hrd eq_refl). congruence. }
  pose (w' := with_isAnalyzing false
                (with_error analysis_failed_message
                   (with_pendingFetch (pred (pendingFetch w)) w))).
  assert (Hprev : preview_panel (render w') = true).
  { unfold image_present in Hai. cbn. unfold image_present. cbn.
    now rewrite Hai, Hres. }
  unfold image_present in Hai.
  destruct (image w) as [s|] eqn:Himg; [|discriminate].
  assert (Himg' : image w' = Some s) by exact Himg.
  exists w'. eexists. exists s. split.
  { unfold step. cbn [enabled handle]. apply Nat.ltb_lt in Hpos as Hb.
    rewrite Hb. unfold bind, modify.
    now rewrite analyzeLips_resume_eq, He. }
  split; [exact Hprev|]. split; [reflexivity|]. split; [exact Himg'|].
  split; [exact (step_ClickAnalyze_eq w' s Hprev Himg')|].
  repeat split.
Qed.

(** X19.  An analysis cannot be called off: along every run, while the
    spinner is on screen none of "Retake", "Try Again", "Analyze Now",
    "Camera" and "Upload" can be pressed. *)
Theorem no_button_while_analyzing w :
  reachable w ->
  isAnalyzing w = true ->
  step w ClickRetake = None /\
  step w ClickTryAgain = None /\
  step w ClickAnalyze = None /\
  step w ClickCamera = None /\
  step w ClickUpload = None.
Proof.
  intros Hreach%reachable_reach Han.
  destruct (analysis_inv_reach _ Hreach) as [_ Hai _ Hrd].
  specialize (Hai Han).
  assert (Hres : truthy (results w) = false).
  { destruct (truthy (results w)); [|reflexivity].
    specialize (Hrd eq_refl). congruence. }
  unfold step. cbn [enabled render preview_panel result_panel idle_panel].
  rewrite Han, Hai, Hres. repeat split.
Qed.

Lemma run_page_reach p evs p' :
  reach_page p -> run_page p evs = Some p' -> reach_page p'.
Proof.
  revert p. induction evs as [|ev evs IH]; intros p Hp; simpl.
  - now intros [= <-].
  - destruct (step_page p ev) as [p1|] eqn:Hstep; [|discriminate].
    apply IH. eapply reach_page_step; eassumption.
Qed.

End App.

(** C10.  For a status that is [null] or [undefined], [getStatusColor]
    throws nothing and returns the alert class, for the background
    variant and for the text variant. *)
Theorem getStatusColor_absent_status type :
  getStatusColor VNull type = Val (class_name alert type) /\
  getStatusColor VUndefined type = Val (class_name alert type) /\
  class_name alert "bg" = "bg-rose-500" /\
  class_name alert "text" = "text-rose-600".
Proof. repeat split. Qed.

(** C6.  The payload sent is the image with its data-URI prefix stripped
    up to and including the first comma.  Whenever what follows the first
    comma holds no further comma, [image.split(',')[1]] is all of it; a
    base64 data URL, which is what both the canvas and the file reader
    produce, is of that kind, so for either source the request carries
    exactly the raw base64 string. *)
Theorem base64Data_strips_data_url_prefix :
  (forall s rest,
     after_first "," s = Some rest ->
     has_char "," rest = false ->
     base64Data s = Some rest) /\
  (forall mime payload,
     has_char "," mime = false ->
     is_base64 payload = true ->
     base64Data (base64_data_url mime payload) = Some payload /\
     after_first "," (base64_data_url mime payload) = Some payload) /\
  (forall env w mime payload,
     image w = Some (base64_data_url mime payload) ->
     has_char "," mime = false ->
     is_base64 payload = true ->
     exists r,
       requests (world_of (analyzeLips env w)) = r :: requests w /\
       req_data r = Some payload).
Proof.
  assert (Hrest : forall s rest,
            after_first "," s = Some rest ->
            has_char "," rest = false ->
            base64Data s = Some rest).
  { intros s rest Hafter Hno. unfold base64Data.
    rewrite split_cases, Hafter, (split_no_sep _ _ Hno). reflexivity. }
  assert (Hurl : forall mime payload,
            has_char "," mime = false ->
            after_first "," (base64_data_url mime payload) = Some payload).
  { intros mime payload Hmime. unfold base64_data_url.
    replace ("data:" +:+ mime +:+ ";base64," +:+ payload)
      with (("data:" +:+ mime +:+ ";base64") +:+ "," +:+ payload).
    2:{ rewrite !append_assoc. reflexivity. }
    apply after_first_at.
    change ("data:" +:+ mime +:+ ";base64")
      with ("data:" +:+ (mime +:+ ";base64")).
    rewrite !has_char_app, Hmime. reflexivity. }
  split; [exact Hrest|]. split.
  - intros mime payload Hmime Hpay. split; [|now apply Hurl].
    apply Hrest; [now apply Hurl | now apply base64_no_comma].
  - intros env w mime payload Himg Hmime Hpay.
    unfold analyzeLips, bind, read. rewrite Himg.
    assert (Hne : String.eqb (base64_data_url mime payload) "" = false)
      by reflexivity.
    rewrite Hne. eexists. split; [reflexivity|]. cbn [req_data].
    apply Hrest; [now apply Hurl | now apply base64_no_comma].
Qed.

(** ** The claims on the sample data *)

Lemma run_sample_reachable evs w :
  run Sample.env Sample.JSON_parse initial evs = Some w ->
  reachable Sample.env Sample.JSON_parse w.
Proof. intros H. now exists evs. Qed.

(** C1 as the spec states it fails: after an upload and a successful
    analysis, "Try Again" leaves the image in place and the start panel
    does not come back. *)
Lemma tryAgain_does_not_return_to_idle :
  ~ (forall w w',
       reachable Sample.env Sample.JSON_parse w ->
       result_panel (render w) = true ->
       step Sample.env Sample.JSON_parse w ClickTryAgain = Some w' ->
       idle_panel (render w') = true /\ results w' = VNull /\ image w' = None).
Proof.
  intros H.
  destruct (H (after Sample.env Sample.JSON_parse Sample.analysed)
              (with_results VNull
                 (after Sample.env Sample.JSON_parse Sample.analysed)))
    as (Hidle & _ & _).
  - apply (run_sample_reachable Sample.analysed). vm_compute. reflexivity.
  - vm_compute. reflexivity.
  - vm_compute. reflexivity.
  - vm_compute in Hidle. discriminate.
Qed.

Lemma tryAgain_clears_results_only_witness :
  let w := after Sample.env Sample.JSON_parse Sample.analysed in
  reachable Sample.env Sample.JSON_parse w /\
  result_panel (render w) = true /\
  image w <> None /\
  (exists w',
     step Sample.env Sample.JSON_parse w ClickTryAgain = Some w' /\
     image w' = Some Sample.upload /\
     preview_panel (render w') = true) /\
  (forall ev w',
     step Sample.env Sample.JSON_parse w ev = Some w' ->
     image w' = None -> ev = ClickRetake).
Proof.
  intros w.
  destruct (tryAgain_clears_results_only Sample.env Sample.JSON_parse)
    as (Hkeep & Honly & _).
  assert (Hreach : reachable Sample.env Sample.JSON_parse w).
  { apply (run_sample_reachable Sample.analysed). vm_compute. reflexivity. }
  assert (Hres : result_panel (render w) = true).
  { vm_compute. reflexivity. }
  assert (Himg0 : image w <> None) by (vm_compute; discriminate).
  split; [exact Hreach|]. split; [exact Hres|]. split; [exact Himg0|]. split.
  - destruct (Hkeep w Hreach Hres)
      as (w' & Hstep & _ & _ & Himg & _ & Hprev & _).
    exists w'. split; [exact Hstep|]. split; [|exact Hprev].
    rewrite Himg. vm_compute. reflexivity.
  - intros ev w' Hstep Hnone. exact (Honly w ev w' Hstep Himg0 Hnone).
Defined.

(** C2 as the spec states it fails: called while the first call is
    outstanding, [analyzeLips] is not a no-op; it sends a second request. *)
Lemma analyzeLips_while_analyzing_sends_again :
  ~ (forall w,
       reachable Sample.env Sample.JSON_parse w ->
       isAnalyzing w = true ->
       requests (world_of (analyzeLips Sample.env w)) = requests w /\
       world_of (analyzeLips Sample.env w) = w).
Proof.
  intros H.
  destruct (H (after Sample.env Sample.JSON_parse Sample.analysing))
    as (Hreq & _).
  - apply (run_sample_reachable Sample.analysing). vm_compute. reflexivity.
  - vm_compute. reflexivity.
  - vm_compute in Hreq. discriminate.
Qed.

Lemma analyze_one_outstanding_request_witness :
  let w := after Sample.env Sample.JSON_parse Sample.analysing in
  isAnalyzing w = true /\
  reachable Sample.env Sample.JSON_parse w /\
  step Sample.env Sample.JSON_parse w ClickAnalyze = None /\
  pendingFetch w <= 1 /\
  analyzeLips Sample.env initial = Ok tt initial.
Proof.
  intros w.
  destruct (analyze_one_outstanding_request Sample.env Sample.JSON_parse)
    as (Hgate & Hnoimage & Hone & _).
  assert (Han : isAnalyzing w = true) by (vm_compute; reflexivity).
  assert (Hreach : reachable Sample.env Sample.JSON_parse w).
  { apply (run_sample_reachable Sample.analysing). vm_compute. reflexivity. }
  split; [exact Han|]. split; [exact Hreach|].
  split; [exact (Hgate w Han)|].
  split; [exact (proj1 (Hone w Hreach))|].
  apply Hnoimage. vm_compute. reflexivity.
Defined.

Lemma handleImageUpload_rejects_non_image_witness :
  startsWith "image/" (file_type Sample.pdf) = false /\
  handleImageUpload (Some Sample.pdf) initial =
    Ok tt (with_error invalid_input_message initial) /\
  idle_panel (render (world_of (handleImageUpload (Some Sample.pdf) initial)))
    = true.
Proof.
  assert (Hty : startsWith "image/" (file_type Sample.pdf) = false).
  { vm_compute. reflexivity. }
  destruct (handleImageUpload_rejects_non_image initial Sample.pdf Hty)
    as (Heq & _ & _ & _ & _ & _ & _ & _ & Hidle).
  split; [exact Hty|]. split; [exact Heq|].
  apply Hidle. vm_compute. reflexivity.
Defined.

(** C4 fails on the code.  [capturePhoto] stores the new image and stops
    the camera, and touches neither [results] nor [error], while the
    upload path clears both.  Two runs show it: a capture that arrives
    after an upload was analysed keeps the old result on screen over the
    new image, and a capture after a denied second camera request keeps
    the camera error over the new image. *)
Theorem capturePhoto_keeps_results_and_error :
  (forall w frame,
     results (world_of (capturePhoto frame w)) = results w /\
     error (world_of (capturePhoto frame w)) = error w) /\
  (forall w result,
     results (world_of (reader_onload result w)) = VNull /\
     error (world_of (reader_onload result w)) = "") /\
  (let w := after Sample.env Sample.JSON_parse Sample.late_capture in
   run Sample.env Sample.JSON_parse initial Sample.late_capture = Some w /\
   image w = Some Sample.frame /\
   results w = Sample.result /\
   result_panel (render w) = true) /\
  (let w := after Sample.env Sample.JSON_parse Sample.denied_then_capture in
   run Sample.env Sample.JSON_parse initial Sample.denied_then_capture = Some w /\
   image w = Some Sample.frame /\
   error w = "Could not access camera. Please check permissions or upload a photo." /\
   error_banner (render w) = true).
Proof.
  split; [|split; [|split]].
  - intros w frame. unfold capturePhoto, stopCamera, videoRef_current, bind,
      read, modify, ret, setImage, setIsCameraActive.
    destruct (isCameraActive w); simpl; [|split; reflexivity].
    destruct (streamRef w); split; reflexivity.
  - intros w result. split; reflexivity.
  - vm_compute. repeat split.
  - vm_compute. repeat split.
Qed.

(** C5 as the spec states it fails: two presses of Camera before the
    platform answers open two sessions at once. *)
Lemma two_camera_sessions_open :
  ~ (forall w,
       reachable Sample.env Sample.JSON_parse w ->
       forall i j, open_at w i = true -> open_at w j = true -> i = j).
Proof.
  intros H.
  specialize (H (after Sample.env Sample.JSON_parse Sample.double_camera)).
  assert (Hneq : 0 = 1); [|discriminate].
  apply H.
  - apply (run_sample_reachable Sample.double_camera). vm_compute. reflexivity.
  - vm_compute. reflexivity.
  - vm_compute. reflexivity.
Qed.

Lemma reach_one_request_camera_on :
  reach_one_request Sample.env Sample.JSON_parse
    (after Sample.env Sample.JSON_parse Sample.camera_on).
Proof.
  eapply one_request_step with (ev := CameraGranted [live]).
  - eapply one_request_step with (ev := ClickCamera).
    + apply one_request_initial.
    + vm_compute. reflexivity.
    + intros _. reflexivity.
  - vm_compute. reflexivity.
  - discriminate.
Defined.

Lemma capturePhoto_releases_session_witness :
  let w := after Sample.env Sample.JSON_parse Sample.camera_on in
  camera_panel (render w) = true /\
  is_data_url Sample.frame = true /\
  open_at w 0 = true /\
  streamRef w = Some 0 /\
  exists w',
    step Sample.env Sample.JSON_parse w (ClickCapture Sample.frame) = Some w' /\
    image w' = Some Sample.frame /\
    streamRef w' = None /\
    open_at w' 0 = false.
Proof.
  intros w.
  destruct (capturePhoto_releases_session Sample.env Sample.JSON_parse)
    as (Hcapture & Hone).
  assert (Hcam : camera_panel (render w) = true) by (vm_compute; reflexivity).
  assert (Hd : is_data_url Sample.frame = true) by (vm_compute; reflexivity).
  assert (Hopen : open_at w 0 = true) by (vm_compute; reflexivity).
  split; [exact Hcam|]. split; [exact Hd|]. split; [exact Hopen|].
  split; [exact (proj2 (Hone w reach_one_request_camera_on 0 0 Hopen Hopen))|].
  destruct (Hcapture w Sample.frame Hcam Hd)
    as (w' & Hstep & Himg & _ & Href & Hstop).
  exists w'. split; [exact Hstep|]. split; [exact Himg|]. split; [exact Href|].
  apply (Hstop 0 [live]); vm_compute; reflexivity.
Defined.

Lemma base64Data_strips_data_url_prefix_witness :
  let w := with_image (Some Sample.frame) initial in
  has_char "," "image/jpeg" = false /\
  is_base64 "/9j/4AAQSkZJRg==" = true /\
  base64Data Sample.frame = Some "/9j/4AAQSkZJRg==" /\
  (exists r,
     requests (world_of (analyzeLips Sample.env w)) = [r] /\
     req_data r = Some "/9j/4AAQSkZJRg==") /\
  base64Data "data:," = Some "".
Proof.
  intros w.
  destruct base64Data_strips_data_url_prefix as (Hrest & Hurl & Hsend).
  assert (Hmime : has_char "," "image/jpeg" = false).
  { vm_compute. reflexivity. }
  assert (Hpay : is_base64 "/9j/4AAQSkZJRg==" = true).
  { vm_compute. reflexivity. }
  split; [exact Hmime|]. split; [exact Hpay|].
  split; [exact (proj1 (Hurl "image/jpeg" "/9j/4AAQSkZJRg==" Hmime Hpay))|].
  split.
  - exact (Hsend Sample.env w "image/jpeg" "/9j/4AAQSkZJRg=="
             eq_refl Hmime Hpay).
  - exact (Hrest "data:," "" eq_refl eq_refl).
Defined.

Lemma key_rejected_is_failure :
  analysis_failure Sample.JSON_parse Sample.key_rejected.
Proof. eapply failure_envelope. vm_compute. reflexivity. Defined.

Lemma analysis_failure_sets_generic_error_witness :
  let w := after Sample.env Sample.JSON_parse Sample.analysing in
  analysis_failure Sample.JSON_parse Sample.key_rejected /\
  0 < pendingFetch w /\
  exists w',
    step Sample.env Sample.JSON_parse w (FetchSettled Sample.key_rejected)
      = Some w' /\
    error w' = analysis_failed_message /\
    isAnalyzing w' = false /\
    image w' = Some Sample.upload.
Proof.
  intros w.
  assert (Hpos : 0 < pendingFetch w) by (vm_compute; lia).
  split; [exact key_rejected_is_failure|]. split; [exact Hpos|].
  destruct (analysis_failure_sets_generic_error Sample.env Sample.JSON_parse
              w Sample.key_rejected key_rejected_is_failure Hpos)
    as (w' & _ & Hstep & Herr & Han & Himg & _).
  exists w'. split; [exact Hstep|]. split; [exact Herr|]. split; [exact Han|].
  rewrite Himg. vm_compute. reflexivity.
Defined.

Lemma missing_api_key_does_not_crash_witness :
  let w := with_image (Some Sample.upload) initial in
  apiKey Sample.no_key_env = "" /\
  image_present w = true /\
  (exists r, requests (world_of (analyzeLips Sample.no_key_env w)) = [r] /\
             req_url r = endpoint) /\
  (exists w', analyzeLips_resume Sample.JSON_parse Sample.key_rejected w
                = Ok tt w' /\
              error w' = analysis_failed_message /\
              isAnalyzing w' = false).
Proof.
  intros w.
  destruct (missing_api_key_does_not_crash Sample.no_key_env Sample.JSON_parse)
    as (_ & _ & Hnokey).
  assert (Hkey : apiKey Sample.no_key_env = "") by (vm_compute; reflexivity).
  assert (Himg : image_present w = true) by (vm_compute; reflexivity).
  destruct (Hnokey Hkey) as (Hsend & Hfail).
  split; [exact Hkey|]. split; [exact Himg|]. split.
  - exact (Hsend w Himg).
  - apply Hfail. right.
    exists [("error", VObj [("code", VNum 400);
                            ("status", VStr "INVALID_ARGUMENT")])].
    split; reflexivity.
Defined.

Lemma getStatusColor_by_substring_witness :
  let w := after Sample.env Sample.JSON_parse Sample.analysing in
  contains_ci "well" "Well Hydrated" /\
  getStatusColor (VStr "Well Hydrated") "bg" = Val "bg-emerald-500" /\
  (contains_ci "mild" "Mildly dry" /\ ~ contains_ci "well" "Mildly dry") /\
  getStatusColor (VStr "Mildly dry") "text" = Val "text-amber-600" /\
  getStatusColor (VStr "Dehydrated") "bg" = Val "bg-rose-500" /\
  exists w' v,
    step Sample.env Sample.JSON_parse w (FetchSettled Sample.success) = Some w' /\
    render_results (results w') = Val v /\
    score_text v = "82%" /\
    header_class v = "bg-emerald-500".
Proof.
  intros w.
  destruct (getStatusColor_by_substring Sample.env Sample.JSON_parse)
    as (Hclass & Hshow).
  assert (Hwell : contains_ci "well" "Well Hydrated").
  { exists "", "Well", " Hydrated". split; reflexivity. }
  assert (Hmild : contains_ci "mild" "Mildly dry").
  { exists "", "Mild", "ly dry". split; reflexivity. }
  assert (Hno : forall pat s,
            includes pat (toLowerCase s) = false -> ~ contains_ci pat s).
  { intros pat s Hf Hc%includes_toLowerCase. congruence. }
  split; [exact Hwell|].
  split; [exact (proj1 (Hclass "Well Hydrated" "bg") Hwell)|].
  split; [split; [exact Hmild | apply Hno; vm_compute; reflexivity]|].
  split.
  { apply (proj1 (proj2 (Hclass "Mildly dry" "text")) Hmild).
    apply Hno. vm_compute. reflexivity. }
  split.
  { apply (proj2 (proj2 (Hclass "Dehydrated" "bg")));
      apply Hno; vm_compute; reflexivity. }
  destruct (Hshow w Sample.success
              [("overallStatus", VStr "Well Hydrated");
               ("dehydrationScore", VNum 82);
               ("crackness", VStr "none");
               ("dryness", VStr "smooth");
               ("moisture", VStr "good");
               ("color", VStr "pink");
               ("recommendations", VArr [VStr "Keep drinking water"])]
              "good" "smooth")
    as (w' & Hstep & _ & _ & Hview).
  - vm_compute. lia.
  - vm_compute. reflexivity.
  - reflexivity.
  - reflexivity.
  - reflexivity.
  - reflexivity.
  - exists w'. eexists. split; [exact Hstep|]. split; [exact Hview|].
    split; reflexivity.
Defined.

(** ** The further properties on the sample data *)

Lemma streamRef_live_while_camera_on_witness :
  let w := after Sample.env Sample.JSON_parse Sample.camera_on in
  reachable Sample.env Sample.JSON_parse w /\
  isCameraActive w = true /\
  streamRef w = Some 0 /\
  open_at w 0 = true.
Proof.
  intros w.
  assert (Hreach : reachable Sample.env Sample.JSON_parse w).
  { apply (run_sample_reachable Sample.camera_on). vm_compute. reflexivity. }
  destruct (streamRef_live_while_camera_on _ _ w Hreach) as (_ & Hopen).
  assert (Href : streamRef w = Some 0) by (vm_compute; reflexivity).
  split; [exact Hreach|]. split; [vm_compute; reflexivity|].
  split; [exact Href|]. exact (Hopen 0 Href).
Defined.

Lemma unreferenced_stream_stays_open_witness :
  let w := after Sample.env Sample.JSON_parse Sample.double_camera in
  let w' := after Sample.env Sample.JSON_parse (Sample.double_camera ++ [ClickCapture Sample.frame]) in
  run Sample.env Sample.JSON_parse w [ClickCapture Sample.frame] = Some w' /\
  open_at w 0 = true /\
  streamRef w <> Some 0 /\
  open_at w' 0 = true /\
  isCameraActive w' = false.
Proof.
  intros w w'.
  assert (Hrun : run Sample.env Sample.JSON_parse w [ClickCapture Sample.frame] = Some w').
  { vm_compute. reflexivity. }
  assert (Hopen : open_at w 0 = true) by (vm_compute; reflexivity).
  assert (Href : streamRef w <> Some 0) by (vm_compute; discriminate).
  split; [exact Hrun|]. split; [exact Hopen|]. split; [exact Href|].
  split; [|vm_compute; reflexivity].
  exact (proj1 (unreferenced_stream_stays_open _ _ w _ w' 0 Hrun Hopen Href)).
Defined.

Lemma requests_only_from_analyze_witness :
  let w := after Sample.env Sample.JSON_parse Sample.analysing in
  reachable Sample.env Sample.JSON_parse w /\
  (forall r, In r (requests w) -> req_mimeType r = "image/jpeg") /\
  requests (after Sample.env Sample.JSON_parse Sample.analysed) = requests w.
Proof.
  intros w.
  destruct (requests_only_from_analyze Sample.env Sample.JSON_parse)
    as (Hother & _ & Hall).
  assert (Hreach : reachable Sample.env Sample.JSON_parse w).
  { apply (run_sample_reachable Sample.analysing). vm_compute. reflexivity. }
  split; [exact Hreach|]. split.
  - intros r Hin. exact (proj2 (Hall w Hreach r Hin)).
  - apply (Hother w (FetchSettled Sample.success)).
    + vm_compute. reflexivity.
    + discriminate.
Defined.

Lemma error_is_a_known_message_witness :
  let w := after Sample.env Sample.JSON_parse Sample.denied_then_capture in
  reachable Sample.env Sample.JSON_parse w /\ known_error (error w) /\
  error w = camera_denied_message.
Proof.
  intros w.
  assert (Hreach : reachable Sample.env Sample.JSON_parse w).
  { apply (run_sample_reachable Sample.denied_then_capture).
    vm_compute. reflexivity. }
  split; [exact Hreach|].
  split; [exact (error_is_a_known_message _ _ w Hreach)|].
  vm_compute. reflexivity.
Defined.

Lemma one_main_panel_witness :
  let w := after Sample.env Sample.JSON_parse Sample.analysed in
  reach_rendered Sample.env Sample.JSON_parse w /\
  screen w = Some (render w) /\
  length (filter (fun b => b = true)
            [idle_panel (render w); preview_panel (render w);
             spinner (render w); result_panel (render w)]) = 1 /\
  screen (with_results (VObj [("overallStatus", VNum 3)]) w) = None.
Proof.
  intros w.
  destruct (one_main_panel Sample.env Sample.JSON_parse)
    as (Hblank & _ & Hone).
  assert (Hreach : reach_rendered Sample.env Sample.JSON_parse w).
  { apply (run_rendered_reach Sample.env Sample.JSON_parse
             initial Sample.analysed).
    - apply rendered_initial.
    - vm_compute. reflexivity. }
  assert (Hscreen : screen w = Some (render w)) by (vm_compute; reflexivity).
  split; [exact Hreach|]. split; [exact Hscreen|]. split.
  - rewrite (Hone w (render w) Hreach Hscreen). vm_compute. reflexivity.
  - apply Hblank. split; [reflexivity|]. exists TypeError. reflexivity.
Defined.

Lemma tryAgain_then_retake_discards_image_witness :
  let w := after Sample.env Sample.JSON_parse Sample.analysed in
  reachable Sample.env Sample.JSON_parse w /\
  result_panel (render w) = true /\
  exists w',
    run Sample.env Sample.JSON_parse w [ClickTryAgain; ClickRetake] = Some w' /\
    idle_panel (render w') = true.
Proof.
  intros w.
  assert (Hreach : reachable Sample.env Sample.JSON_parse w).
  { apply (run_sample_reachable Sample.analysed). vm_compute. reflexivity. }
  assert (Hres : result_panel (render w) = true) by (vm_compute; reflexivity).
  split; [exact Hreach|]. split; [exact Hres|].
  destruct (tryAgain_then_retake_discards_image _ _ w Hreach Hres)
    as (w' & Hrun & _ & Hidle).
  exists w'. split; [exact Hrun|]. rewrite Hidle. vm_compute. reflexivity.
Defined.

Lemma analysis_success_stores_parsed_value_witness :
  let w := after Sample.env Sample.JSON_parse Sample.analysing in
  0 < pendingFetch w /\
  analysis_result Sample.JSON_parse Sample.success = Val Sample.result /\
  exists w',
    step Sample.env Sample.JSON_parse w (FetchSettled Sample.success)
      = Some w' /\
    results w' = Sample.result /\
    screen w' = Some (render w') /\
    result_panel (render w') = true.
Proof.
  intros w.
  assert (Hpos : 0 < pendingFetch w) by (vm_compute; lia).
  assert (Hres : analysis_result Sample.JSON_parse Sample.success
                 = Val Sample.result) by (vm_compute; reflexivity).
  split; [exact Hpos|]. split; [exact Hres|].
  destruct (analysis_success_stores_parsed_value
              Sample.env Sample.JSON_parse w _ _ Hpos Hres)
    as (w' & Hstep & Hr & _ & _ & _ & _ & Hpanel & _).
  assert (Hscreen : screen w' = Some (render w')).
  { unfold screen. rewrite Hr. vm_compute. reflexivity. }
  exists w'. split; [exact Hstep|]. split; [exact Hr|].
  split; [exact Hscreen|].
  rewrite (Hpanel _ Hscreen). reflexivity.
Defined.

Lemma upload_then_load_shows_preview_witness :
  let w := after Sample.env Sample.JSON_parse [ClickUpload] in
  dialogOpen w = true /\
  startsWith "image/" (file_type Sample.png) = true /\
  is_data_url Sample.upload = true /\
  exists w',
    run Sample.env Sample.JSON_parse w [FileInputChange (Some Sample.png);
                  ReaderLoaded Sample.upload] = Some w' /\
    image w' = Some Sample.upload /\
    preview_panel (render w') = true.
Proof.
  intros w.
  assert (Hdlg : dialogOpen w = true) by (vm_compute; reflexivity).
  assert (Hty : startsWith "image/" (file_type Sample.png) = true).
  { vm_compute. reflexivity. }
  assert (Hurl : is_data_url Sample.upload = true) by (vm_compute; reflexivity).
  split; [exact Hdlg|]. split; [exact Hty|]. split; [exact Hurl|].
  destruct (upload_then_load_shows_preview
              Sample.env Sample.JSON_parse w _ _ Hdlg Hty Hurl)
    as (w' & Hrun & Himg & _ & _ & _ & _ & _ & _ & Hprev).
  exists w'. split; [exact Hrun|]. split; [exact Himg|].
  rewrite Hprev. vm_compute. reflexivity.
Defined.

Lemma failed_read_is_silent_witness :
  let w := after Sample.env Sample.JSON_parse [ClickUpload] in
  dialogOpen w = true /\
  startsWith "image/" (file_type Sample.png) = true /\
  run Sample.env Sample.JSON_parse w [FileInputChange (Some Sample.png); ReaderFailed]
    = Some initial.
Proof.
  intros w.
  assert (Hdlg : dialogOpen w = true) by (vm_compute; reflexivity).
  assert (Hty : startsWith "image/" (file_type Sample.png) = true).
  { vm_compute. reflexivity. }
  split; [exact Hdlg|]. split; [exact Hty|].
  rewrite (failed_read_is_silent Sample.env Sample.JSON_parse w _ Hdlg Hty).
  vm_compute. reflexivity.
Defined.

Lemma startCamera_denied_or_granted_witness :
  idle_panel (render initial) = true /\
  (exists w',
     run Sample.env Sample.JSON_parse initial [ClickCamera; CameraDenied] = Some w' /\
     error w' = camera_denied_message /\
     idle_panel (render w') = true) /\
  (exists w',
     run Sample.env Sample.JSON_parse initial [ClickCamera; CameraGranted [live]] = Some w' /\
     streamRef w' = Some 0 /\
     camera_panel (render w') = true).
Proof.
  assert (Hidle : idle_panel (render initial) = true).
  { vm_compute. reflexivity. }
  destruct (startCamera_denied_or_granted
              Sample.env Sample.JSON_parse initial Hidle)
    as ((w1 & Hrun1 & Herr & Hidle1 & _) & Hgrant).
  split; [exact Hidle|]. split.
  - exists w1. split; [exact Hrun1|]. split; [exact Herr | exact Hidle1].
  - destruct (Hgrant [live] eq_refl) as (w2 & Hrun2 & _ & Href & _ & Hcam & _).
    exists w2. split; [exact Hrun2|]. split; [exact Href | exact Hcam].
Defined.

Lemma video_plays_an_open_stream_witness :
  let p := {| page_world := after Sample.env Sample.JSON_parse Sample.double_camera;
              srcObject := Some 0 |} in
  reach_page Sample.env Sample.JSON_parse p /\
  isCameraActive (page_world p) = true /\
  streamRef (page_world p) = Some 1 /\
  exists i, srcObject p = Some i /\ open_at (page_world p) i = true.
Proof.
  intros p.
  assert (Hreach : reach_page Sample.env Sample.JSON_parse p).
  { apply (run_page_reach Sample.env Sample.JSON_parse
             initial_page Sample.double_camera).
    - apply reach_page_initial.
    - vm_compute. reflexivity. }
  assert (Hon : isCameraActive (page_world p) = true).
  { vm_compute. reflexivity. }
  split; [exact Hreach|]. split; [exact Hon|].
  split; [vm_compute; reflexivity|].
  exact (proj2 (video_plays_an_open_stream _ _ p Hreach) Hon).
Defined.

Lemma reach_page_one_request_camera_on :
  reach_page_one_request Sample.env Sample.JSON_parse
    {| page_world := after Sample.env Sample.JSON_parse Sample.camera_on; srcObject := Some 0 |}.
Proof.
  eapply page_one_request_step with (ev := CameraGranted [live]).
  - eapply page_one_request_step with (ev := ClickCamera).
    + apply page_one_request_initial.
    + vm_compute. reflexivity.
    + intros _. reflexivity.
  - vm_compute. reflexivity.
  - discriminate.
Defined.

Lemma video_plays_the_held_stream_witness :
  let p := {| page_world := after Sample.env Sample.JSON_parse Sample.camera_on;
              srcObject := Some 0 |} in
  reach_page_one_request Sample.env Sample.JSON_parse p /\
  isCameraActive (page_world p) = true /\
  srcObject p = streamRef (page_world p).
Proof.
  intros p.
  assert (Hon : isCameraActive (page_world p) = true).
  { vm_compute. reflexivity. }
  split; [exact reach_page_one_request_camera_on|]. split; [exact Hon|].
  exact (video_plays_the_held_stream _ _ p reach_page_one_request_camera_on Hon).
Defined.

Lemma response_text_reads_first_candidate_witness :
  response_text (Sample.envelope (VStr "text")) = Val (VStr "text") /\
  response_text (VObj [("candidates", VArr [])]) = Raise TypeError /\
  analysis_failure Sample.JSON_parse Sample.key_rejected.
Proof.
  destruct (response_text_reads_first_candidate Sample.JSON_parse)
    as (Hfirst & Hthrow).
  split; [|split].
  - exact (Hfirst
             [("candidates",
               VArr [VObj [("content",
                            VObj [("parts",
                                   VArr [VObj [("text", VStr "text")]])])]])]
             [("content", VObj [("parts", VArr [VObj [("text", VStr "text")]])])]
             []
             [("parts", VArr [VObj [("text", VStr "text")]])]
             [("text", VStr "text")]
             [] eq_refl eq_refl eq_refl).
  - apply Hthrow. right. eexists. split; [reflexivity|].
    right; right; left. reflexivity.
  - apply (Hthrow (VObj [("error", VObj [("code", VNum 400);
                                         ("status", VStr "INVALID_ARGUMENT")])])).
    right. eexists. split; [reflexivity|]. left. reflexivity.
Defined.

Lemma getStatusColor_needs_a_string_witness :
  absent_or_string (VNum 3) = false /\
  getStatusColor (VNum 3) "bg" = Raise TypeError /\
  render_results (VObj [("overallStatus", VNum 3)]) = Raise TypeError /\
  exists cls, getStatusColor (VStr "Dry") "bg" = Val cls.
Proof.
  assert (Hns : absent_or_string (VNum 3) = false) by reflexivity.
  destruct (getStatusColor_needs_a_string (VNum 3) "bg") as (_ & Hthrow).
  destruct (Hthrow Hns) as (Hcolor & Hrender).
  split; [exact Hns|]. split; [exact Hcolor|].
  split; [exact (Hrender [("overallStatus", VNum 3)] eq_refl)|].
  apply (proj1 (getStatusColor_needs_a_string (VStr "Dry") "bg")).
  reflexivity.
Defined.

Lemma render_results_of_schema_result_witness :
  (exists cls,
     render_results
       (VObj [("overallStatus", VStr "Severely dry");
              ("dehydrationScore", VNum 250);
              ("dryness", VStr "rough");
              ("moisture", VStr "low")])
     = Val {| header_class := cls; score_text := "250%";
              status_text := "Severely dry"; moisture_text := "low";
              texture_text := "rough" |}) /\
  of_Z 250 = decimal 250.
Proof.
  destruct (render_results_of_schema_result
              [("overallStatus", VStr "Severely dry");
               ("dehydrationScore", VNum 250);
               ("dryness", VStr "rough");
               ("moisture", VStr "low")]
              "Severely dry" 250 "low" "rough"
              eq_refl eq_refl eq_refl eq_refl) as ((cls & _ & Hview) & Hdec).
  split; [exists cls; exact Hview|].
  apply Hdec. lia.
Defined.

Lemma render_results_without_fields_witness :
  get_prop (VNum 7) "overallStatus" = Val VUndefined /\
  score_text <$> match render_results (VNum 7) with
                 | Val v => Some v
                 | Raise _ => None
                 end = Some "%" /\
  render_results (VObj []) = render_results (VNum 7).
Proof.
  split; [reflexivity|].
  rewrite (render_results_without_fields (VNum 7)
             eq_refl eq_refl eq_refl eq_refl).
  rewrite (render_results_without_fields (VObj [])
             eq_refl eq_refl eq_refl eq_refl).
  split; reflexivity.
Defined.

Lemma base64Data_characterised_witness :
  base64Data Sample.frame = Some "/9j/4AAQSkZJRg==" /\
  has_char "," "/9j/4AAQSkZJRg==" = false /\
  base64Data "data:" = None.
Proof.
  assert (Hsome : base64Data Sample.frame = Some "/9j/4AAQSkZJRg==").
  { vm_compute. reflexivity. }
  split; [exact Hsome|]. split.
  - exact (proj1 (proj2 (base64Data_characterised Sample.frame) _ Hsome)).
  - apply (proj1 (base64Data_characterised "data:")). reflexivity.
Defined.

Lemma failed_analysis_can_be_repeated_witness :
  let w := after Sample.env Sample.JSON_parse Sample.analysing in
  reachable Sample.env Sample.JSON_parse w /\
  0 < pendingFetch w /\
  analysis_failure Sample.JSON_parse Sample.key_rejected /\
  exists w' w'',
    step Sample.env Sample.JSON_parse w (FetchSettled Sample.key_rejected) = Some w' /\
    step Sample.env Sample.JSON_parse w' ClickAnalyze = Some w'' /\
    length (requests w'') = 2.
Proof.
  intros w.
  assert (Hreach : reachable Sample.env Sample.JSON_parse w).
  { apply (run_sample_reachable Sample.analysing). vm_compute. reflexivity. }
  assert (Hpos : 0 < pendingFetch w) by (vm_compute; lia).
  split; [exact Hreach|]. split; [exact Hpos|].
  split; [exact key_rejected_is_failure|].
  destruct (failed_analysis_can_be_repeated Sample.env Sample.JSON_parse
              w _ Hreach Hpos key_rejected_is_failure)
    as (w' & w'' & s & Hfail & _ & _ & _ & Hagain & _ & _ & Hreq).
  exists w', w''. split; [exact Hfail|]. split; [exact Hagain|].
  rewrite Hreq. vm_compute. reflexivity.
Defined.

Lemma no_button_while_analyzing_witness :
  let w := after Sample.env Sample.JSON_parse Sample.analysing in
  reachable Sample.env Sample.JSON_parse w /\
  isAnalyzing w = true /\
  step Sample.env Sample.JSON_parse w ClickRetake = None.
Proof.
  intros w.
  assert (Hreach : reachable Sample.env Sample.JSON_parse w).
  { apply (run_sample_reachable Sample.analysing). vm_compute. reflexivity. }
  assert (Han : isAnalyzing w = true) by (vm_compute; reflexivity).
  split; [exact Hreach|]. split; [exact Han|].
  exact (proj1 (no_button_while_analyzing _ _ w Hreach Han)).
Defined.
